(** * Reconciliation primitives of crossplane-runtime

    A shallow embedding of [pkg/resource/api.go] (the connection propagator
    and the two applicators) and of the managed-resource helpers (finalizer,
    external-name initializer, secret publisher), together with the properties
    of their interaction with the API server client.

    Go values are embedded as follows.
    - An [error] interface value is an [option error]; [None] is [nil].
    - A method that mutates the object behind a pointer argument returns the
      object as it leaves it, next to its error.
    - [client.Client] is an interface: it is a type class over the state of
      whatever implements it.  Every call made through it is appended to a log,
      so that "which calls were issued, in which order" is a statement about
      the final world.
    - A run either returns or aborts ([panic]). *)

From Stdlib Require Import NArith.
From stdpp Require Import base option gmap strings list fin_maps.

Set Default Proof Using "Type".
Open Scope string_scope.
Open Scope list_scope.

(** ** Errors *)

(** [metav1.StatusReason], as far as the callers distinguish it. *)
Inductive StatusReason :=
| StatusReasonUnknown
| StatusReasonNotFound
| StatusReasonAlreadyExists
| StatusReasonConflict
| StatusReasonForbidden
| StatusReasonUnsupportedMediaType.

(** The dynamic types of [error] values that occur: an API status error
    ([kerrors.StatusError]), [errors.New] and [errors.Wrap]. *)
Inductive error :=
| StatusError (reason : StatusReason) (message : string)
| fundamental (msg : string)
| withMessage (cause : error) (msg : string).

Module errors.
Definition New (msg : string) : option error := Some (fundamental msg).

(** [errors.Wrap] returns nil when given nil. *)
Definition Wrap (err : option error) (msg : string) : option error :=
  match err with
  | None => None
  | Some e => Some (withMessage e msg)
  end.

Fixpoint Cause (e : error) : error :=
  match e with
  | withMessage c _ => Cause c
  | _ => e
  end.
End errors.

Module kerrors.
(** [kerrors.IsNotFound] looks at the reason of the error it is given. *)
Definition IsNotFound (err : option error) : bool :=
  match err with
  | Some (StatusError StatusReasonNotFound _) => true
  | _ => false
  end.

Definition IsConflict (err : option error) : bool :=
  match err with
  | Some (StatusError StatusReasonConflict _) => true
  | _ => false
  end.
End kerrors.

(** ** Objects *)

Record GroupVersionKind := {
  gvkGroup : string;
  gvkVersion : string;
  gvkKind : string }.

Record OwnerReference := {
  orAPIVersion : string;
  orKind : string;
  orName : string;
  orUID : string;
  orController : option bool;
  orBlockOwnerDeletion : option bool }.

(** [metav1.ObjectMeta].  The resource version is the store's version token;
    [0] stands for the unset token.  The finalizers are the set of tokens of
    the specification. *)
Record ObjectMeta := {
  Name : string;
  Namespace : string;
  UID : string;
  ResourceVersion : N;
  Annotations : gmap string string;
  Finalizers : gset string;
  OwnerReferences : list OwnerReference }.

Record SecretReference := {
  refNamespace : string;
  refName : string }.

(** An API object with metadata.  The record carries the fields of the
    concrete types this code touches: the payload of a [corev1.Secret] and the
    secret reference of a [Managed] or a [LocalConnectionSecretOwner]. *)
Record Object := {
  Meta : ObjectMeta;
  WriteConnectionSecretToReference : option SecretReference;
  Data : gmap string string }.

(** A [runtime.Object]: either it also implements [metav1.Object], or it does
    not and only its description is known. *)
Inductive runtime_Object :=
| MetaObject (o : Object)
| OpaqueObject (description : string).

Definition asMetaObject (o : runtime_Object) : option Object :=
  match o with
  | MetaObject m => Some m
  | OpaqueObject _ => None
  end.

Definition DeepCopyObject (o : Object) : Object := o.

Definition SetMeta (m : ObjectMeta) (o : Object) : Object :=
  {| Meta := m;
     WriteConnectionSecretToReference := WriteConnectionSecretToReference o;
     Data := Data o |}.

Definition SetData (d : gmap string string) (o : Object) : Object :=
  {| Meta := Meta o;
     WriteConnectionSecretToReference := WriteConnectionSecretToReference o;
     Data := d |}.

Definition SetAnnotations (a : gmap string string) (o : Object) : Object :=
  SetMeta {| Name := Name (Meta o); Namespace := Namespace (Meta o);
             UID := UID (Meta o); ResourceVersion := ResourceVersion (Meta o);
             Annotations := a; Finalizers := Finalizers (Meta o);
             OwnerReferences := OwnerReferences (Meta o) |} o.

Definition SetFinalizers (f : gset string) (o : Object) : Object :=
  SetMeta {| Name := Name (Meta o); Namespace := Namespace (Meta o);
             UID := UID (Meta o); ResourceVersion := ResourceVersion (Meta o);
             Annotations := Annotations (Meta o); Finalizers := f;
             OwnerReferences := OwnerReferences (Meta o) |} o.

Definition SetResourceVersion (v : N) (o : Object) : Object :=
  SetMeta {| Name := Name (Meta o); Namespace := Namespace (Meta o);
             UID := UID (Meta o); ResourceVersion := v;
             Annotations := Annotations (Meta o);
             Finalizers := Finalizers (Meta o);
             OwnerReferences := OwnerReferences (Meta o) |} o.

Definition GetName (o : Object) : string := Name (Meta o).
Definition GetNamespace (o : Object) : string := Namespace (Meta o).
Definition GetUID (o : Object) : string := UID (Meta o).
Definition GetResourceVersion (o : Object) : N := ResourceVersion (Meta o).
Definition GetAnnotations (o : Object) : gmap string string :=
  Annotations (Meta o).
Definition GetFinalizers (o : Object) : gset string := Finalizers (Meta o).
Definition GetOwnerReferences (o : Object) : list OwnerReference :=
  OwnerReferences (Meta o).
Definition GetWriteConnectionSecretToReference (o : Object)
  : option SecretReference := WriteConnectionSecretToReference o.

(** [types.NamespacedName] *)
Record NamespacedName := {
  nnNamespace : string;
  nnName : string }.

Definition keyOf (o : Object) : NamespacedName :=
  {| nnNamespace := GetNamespace o; nnName := GetName o |}.

(** [&corev1.Secret{}] *)
Definition emptyMeta : ObjectMeta :=
  {| Name := ""; Namespace := ""; UID := ""; ResourceVersion := 0%N;
     Annotations := ∅; Finalizers := ∅; OwnerReferences := [] |}.

Definition emptySecret : Object :=
  {| Meta := emptyMeta; WriteConnectionSecretToReference := None; Data := ∅ |}.

Module metav1.
(** [metav1.GetControllerOf]: the first owner reference whose controller
    flag is set and true. *)
Fixpoint controllerAmong (refs : list OwnerReference)
  : option OwnerReference :=
  match refs with
  | [] => None
  | r :: rest =>
      match orController r with
      | Some true => Some r
      | _ => controllerAmong rest
      end
  end.

Definition GetControllerOf (o : Object) : option OwnerReference :=
  controllerAmong (GetOwnerReferences o).
End metav1.

(** ** JSON documents *)

(** [json.Marshal] produces bytes; the document is kept as its syntax tree. *)
#[warnings="-register-all"] Inductive JSON :=
| JNull
| JBool (b : bool)
| JNum (n : N)
| JStr (s : string)
| JArr (items : list JSON)
| JObj (fields : list (string * JSON)).

Module json.
(** A string member tagged [omitempty]. *)
Definition omitStr (k v : string) : list (string * JSON) :=
  if decide (v = "") then [] else [(k, JStr v)].

Definition omitNum (k : string) (n : N) : list (string * JSON) :=
  if decide (n = 0%N) then [] else [(k, JNum n)].

Definition stringMap (m : gmap string string) : list (string * JSON) :=
  (λ kv, (kv.1, JStr kv.2)) <$> map_to_list m.

Definition omitMap (k : string) (m : gmap string string)
  : list (string * JSON) :=
  if decide (m = ∅) then [] else [(k, JObj (stringMap m))].

Definition omitSet (k : string) (s : gset string) : list (string * JSON) :=
  if decide (s = ∅) then [] else [(k, JArr (JStr <$> elements s))].

Definition omitBoolPtr (k : string) (b : option bool)
  : list (string * JSON) :=
  match b with
  | None => []
  | Some v => [(k, JBool v)]
  end.

Definition ownerReference (r : OwnerReference) : JSON :=
  JObj ([("apiVersion", JStr (orAPIVersion r)); ("kind", JStr (orKind r));
         ("name", JStr (orName r)); ("uid", JStr (orUID r))]
        ++ omitBoolPtr "controller" (orController r)
        ++ omitBoolPtr "blockOwnerDeletion" (orBlockOwnerDeletion r)).

Definition omitOwners (k : string) (l : list OwnerReference)
  : list (string * JSON) :=
  match l with
  | [] => []
  | _ => [(k, JArr (ownerReference <$> l))]
  end.

Definition objectMeta (m : ObjectMeta) : JSON :=
  JObj (omitStr "name" (Name m)
        ++ omitStr "namespace" (Namespace m)
        ++ omitStr "uid" (UID m)
        ++ omitNum "resourceVersion" (ResourceVersion m)
        ++ omitMap "annotations" (Annotations m)
        ++ omitSet "finalizers" (Finalizers m)
        ++ omitOwners "ownerReferences" (OwnerReferences m)).

Definition secretReference (r : SecretReference) : JSON :=
  JObj (omitStr "namespace" (refNamespace r) ++ [("name", JStr (refName r))]).

Definition omitSpec (r : option SecretReference) : list (string * JSON) :=
  match r with
  | None => []
  | Some r =>
      [("spec", JObj [("writeConnectionSecretToRef", secretReference r)])]
  end.

(** [json.Marshal] on an API object. *)
Definition Marshal (o : Object) : JSON :=
  JObj ([("metadata", objectMeta (Meta o))]
        ++ omitSpec (WriteConnectionSecretToReference o)
        ++ omitMap "data" (Data o)).
End json.

(** ** The API server client *)

Inductive PatchType :=
| JSONPatchType
| MergePatchType
| StrategicMergePatchType
| ApplyPatchType.

(** What a client call leaves behind: an error, the object untouched; or no
    error, the object rewritten with the server's answer. *)
Inductive Reply :=
| Failed (e : error)
| Replied (o : Object).

Definition errOf (r : Reply) : option error :=
  match r with
  | Failed e => Some e
  | Replied _ => None
  end.

(** The object behind the pointer after a call made with [o]. *)
Definition objAfter (r : Reply) (o : Object) : Object :=
  match r with
  | Failed _ => o
  | Replied o' => o'
  end.

(** [client.Client], over the state [St] of its implementation.  A
    [client.Patch] value is passed as what its [Type] and [Data] methods
    return. *)
Class Client (St : Type) := {
  client_Get : NamespacedName → Object → St → Reply * St;
  client_Create : Object → St → Reply * St;
  client_Update : Object → St → Reply * St;
  client_Patch : Object → PatchType → JSON → St → Reply * St }.

(** A client whose answer to an update holds the finalizers that were sent. *)
Definition UpdateKeepsFinalizers (St : Type) `{Client St} : Prop :=
  ∀ obj s o' s',
    client_Update obj s = (Replied o', s') →
    GetFinalizers o' = GetFinalizers obj.

(** A client whose answer to an update holds the annotations that were
    sent. *)
Definition UpdateKeepsAnnotations (St : Type) `{Client St} : Prop :=
  ∀ obj s o' s',
    client_Update obj s = (Replied o', s') →
    GetAnnotations o' = GetAnnotations obj.

Inductive Call :=
| CallGet (key : NamespacedName) (into : Object)
| CallCreate (obj : Object)
| CallUpdate (obj : Object)
| CallPatch (obj : Object) (pt : PatchType) (data : JSON).

Definition isWrite (c : Call) : bool :=
  match c with
  | CallGet _ _ => false
  | _ => true
  end.

Definition isUpdate (c : Call) : bool :=
  match c with
  | CallUpdate _ => true
  | _ => false
  end.

Definition isPatch (c : Call) : bool :=
  match c with
  | CallPatch _ _ _ => true
  | _ => false
  end.

(** The calls an applicator may issue for one object: nothing, the read
    alone, or the read followed by one write. *)
Definition readThenWrite (issued : list Call) : Prop :=
  issued = []
  ∨ ∃ key into,
      issued = [CallGet key into]
      ∨ ∃ c, issued = [CallGet key into; c] ∧ isWrite c = true.

(** The error is some cause wrapped with one of the messages. *)
Definition wrappedWith (msgs : list string) (e : error) : Prop :=
  ∃ cause msg, e = withMessage cause msg ∧ msg ∈ msgs.

Record World (St : Type) := mkWorld {
  store : St;
  calls : list Call }.
Arguments mkWorld {St} _ _.
Arguments store {St} _.
Arguments calls {St} _.

Inductive Outcome (A : Type) :=
| Returned (a : A)
| Panicked (reason : string).
Arguments Returned {A} _.
Arguments Panicked {A} _.

(** Computations against the client: state passing, with abort. *)
Definition M (St A : Type) : Type := World St → Outcome A * World St.

Definition ret {St A} (a : A) : M St A := λ w, (Returned a, w).

Definition bind {St A B} (c : M St A) (k : A → M St B) : M St B :=
  λ w, match c w with
       | (Returned a, w') => k a w'
       | (Panicked r, w') => (Panicked r, w')
       end.

Definition panic {St A} (reason : string) : M St A :=
  λ w, (Panicked reason, w).

Notation "'do' x <- c ; k" := (bind c (λ x, k))
  (at level 10, x name, c at level 100, k at level 200).

(** The run of [c] from [w] comes back to its caller. *)
Definition returns {St A} (c : M St A) (w : World St) : Prop :=
  ∃ a w', c w = (Returned a, w').

(** Dereferencing a pointer; a nil pointer aborts the run. *)
Definition deref {St A} (p : option A) : M St A :=
  match p with
  | Some a => ret a
  | None => panic "invalid memory address or nil pointer dereference"
  end.

Section Calls.
Context {St : Type} `{Client St}.

Definition issue (c : Call) (f : St → Reply * St) : M St Reply :=
  λ w, let '(r, s) := f (store w) in
       (Returned r, mkWorld s (calls w ++ [c])).

Definition Get (key : NamespacedName) (into : Object) : M St Reply :=
  issue (CallGet key into) (client_Get key into).

Definition Create (obj : Object) : M St Reply :=
  issue (CallCreate obj) (client_Create obj).

Definition Update (obj : Object) : M St Reply :=
  issue (CallUpdate obj) (client_Update obj).

Definition Patch (obj : Object) (pt : PatchType) (data : JSON)
  : M St Reply :=
  issue (CallPatch obj pt data) (client_Patch obj pt data).
End Calls.

(** ** Package meta *)

Module meta.
(** Modelled from the spec: [meta.FinalizerExists] is declared outside the
    files studied; the finalizers are a set of tokens and this is
    membership ("token already present in the set"). *)
Definition FinalizerExists (o : Object) (finalizer : string) : bool :=
  bool_decide (finalizer ∈ GetFinalizers o).

(** Modelled from the spec: [meta.AddFinalizer] is declared outside the
    files studied; it inserts the token in the set. *)
Definition AddFinalizer (o : Object) (finalizer : string) : Object :=
  SetFinalizers ({[finalizer]} ∪ GetFinalizers o) o.

(** Modelled from the spec: [meta.RemoveFinalizer] is declared outside the
    files studied; it removes the token from the set, a no-op if absent. *)
Definition RemoveFinalizer (o : Object) (finalizer : string) : Object :=
  SetFinalizers (GetFinalizers o ∖ {[finalizer]}) o.

(** Modelled from the spec: the key of the external-name annotation is a
    constant of package [meta], declared outside the files studied. *)
Definition AnnotationKeyExternalName : string :=
  "crossplane.io/external-name".

(** Modelled from the spec: [meta.GetExternalName] is declared outside the
    files studied; it reads the external-name annotation, empty when the
    annotation is not set. *)
Definition GetExternalName (o : Object) : string :=
  default "" (GetAnnotations o !! AnnotationKeyExternalName).

(** Modelled from the spec: [meta.SetExternalName] is declared outside the
    files studied; it sets the external-name annotation. *)
Definition SetExternalName (o : Object) (name : string) : Object :=
  SetAnnotations (<[AnnotationKeyExternalName := name]> (GetAnnotations o)) o.
End meta.

(** ** Package resource: api.go *)

Module resource.
(** An [ApplyOption] receives the current and the desired object behind
    pointers: it may veto with an error and may adjust either in place. *)
Definition ApplyOption : Type :=
  Object → Object → option error * (Object * Object).

(** [runtime.ObjectTyper], the type resolver: it may fail to name a kind. *)
Definition ObjectTyper : Type := Object → option GroupVersionKind.

(** Functions of this repository that [api.go] and its callers use and that
    are declared outside the files studied.  They are parameters:
    [AllowPropagation] (package [meta]) adjusts both of its arguments. *)
Class Imports := {
  LocalConnectionSecretFor : Object → GroupVersionKind → Object;
  ConnectionSecretFor : Object → GroupVersionKind → Object;
  ConnectionSecretMustBeControllableBy : string → ApplyOption;
  AllowPropagation : Object → Object → Object * Object }.

(** An [AllowPropagation] that leaves the payload of the destination as it
    finds it. *)
Definition AllowKeepsPayload `{Imports} : Prop :=
  ∀ from to, Data (AllowPropagation from to).2 = Data to.

Definition errGetSecret : string :=
  "cannot get managed resource's connection secret".
Definition errSecretConflict : string :=
  "cannot establish control of existing connection secret".
Definition errUpdateSecret : string := "cannot update connection secret".
Definition errCreateOrUpdateSecret : string :=
  "cannot create or update connection secret".

(** Modelled from the spec: [resource.IgnoreNotFound] is declared outside
    the files studied; a not-found error is swallowed, every other error is
    reported. *)
Definition IgnoreNotFound (err : option error) : option error :=
  if kerrors.IsNotFound err then None else err.

(** The loop [for _, fn := range ao] with body
    [if err := fn(ctx, x, y); err != nil { return err }]: the options run in
    order on the pair, the first error stops the loop. *)
Fixpoint runOptions (ao : list ApplyOption) (x y : Object)
  : option error * (Object * Object) :=
  match ao with
  | [] => (None, (x, y))
  | fn :: rest =>
      match fn x y with
      | (Some err, xy) => (Some err, xy)
      | (None, (x', y')) => runOptions rest x' y'
      end
  end.

(** An option that never touches its second argument. *)
Definition keepsSecond (fn : ApplyOption) : Prop :=
  ∀ x y, (fn x y).2.2 = y.

(** [type patch struct{ from runtime.Object }] *)
Record patch := { from : Object }.
Definition patch_Type (p : patch) : PatchType := MergePatchType.
Definition patch_Data (p : patch) (_ : Object) : JSON := json.Marshal (from p).

Section Api.
Context {St : Type} `{Client St}.

(** The [Applicator] interface: [Apply] returns its error and leaves the
    object behind its argument as returned here. *)
Definition Applicator : Type :=
  runtime_Object → list ApplyOption → M St (option error * runtime_Object).

(** Modelled from the spec: [resource.MustGetKind] is declared outside
    the files studied.  It returns the kind that the type resolver names for
    the object.  What it does when the resolver names none is described
    nowhere; its single result leaves no room for an error, and the model
    lets the run stop there, so that nothing proved about its callers takes
    a result for granted.  The properties below that need a kind assume the
    resolver names one. *)
Definition MustGetKind (obj : Object) (ot : ObjectTyper)
  : M St GroupVersionKind :=
  match ot obj with
  | Some kind => ret kind
  | None => panic "cannot get kind of supplied object"
  end.

(** [APIPatchingApplicator.Apply] *)
Definition APIPatchingApplicator_Apply : Applicator := λ o ao,
  match asMetaObject o with
  | None => ret (errors.New "cannot access object metadata", o)
  | Some m =>
      let desired := DeepCopyObject m in
      do r <- Get {| nnName := GetName m; nnNamespace := GetNamespace m |} m;
      let err := errOf r in
      let m := objAfter r m in
      if kerrors.IsNotFound err then
        do c <- Create m;
        ret (errors.Wrap (errOf c) "cannot create object",
             MetaObject (objAfter c m))
      else if err is Some _ then
        ret (errors.Wrap err "cannot get object", MetaObject m)
      else
        match runOptions ao m desired with
        | (Some err, (m, _)) => ret (Some err, MetaObject m)
        | (None, (m, desired)) =>
            let p := {| from := desired |} in
            do r <- Patch m (patch_Type p) (patch_Data p m);
            ret (errors.Wrap (errOf r) "cannot patch object",
                 MetaObject (objAfter r m))
        end
  end.

(** [APIUpdatingApplicator.Apply] *)
Definition APIUpdatingApplicator_Apply : Applicator := λ o ao,
  match asMetaObject o with
  | None => ret (errors.New "cannot access object metadata", o)
  | Some m =>
      let current := DeepCopyObject m in
      do r <- Get {| nnName := GetName m; nnNamespace := GetNamespace m |}
                  current;
      let err := errOf r in
      let current := objAfter r current in
      if kerrors.IsNotFound err then
        do c <- Create m;
        ret (errors.Wrap (errOf c) "cannot create object",
             MetaObject (objAfter c m))
      else if err is Some _ then
        ret (errors.Wrap err "cannot get object", MetaObject m)
      else
        match runOptions ao current m with
        | (Some err, (_, m)) => ret (Some err, MetaObject m)
        | (None, (_, m)) =>
            do r <- Update m;
            ret (errors.Wrap (errOf r) "cannot update object",
                 MetaObject (objAfter r m))
        end
  end.

(** [APIManagedConnectionPropagator]: its [ClientApplicator] pairs the
    ambient client with an applicator. *)
Record APIManagedConnectionPropagator := {
  client_Apply : Applicator;
  typer : ObjectTyper }.

Definition NewAPIManagedConnectionPropagator (t : ObjectTyper)
  : APIManagedConnectionPropagator :=
  {| client_Apply := APIUpdatingApplicator_Apply; typer := t |}.

Context `{Imports}.

(** [APIManagedConnectionPropagator.PropagateConnection] *)
Definition PropagateConnection (a : APIManagedConnectionPropagator)
    (o mg : Object) : M St (option error) :=
  if bool_decide (GetWriteConnectionSecretToReference mg = None)
     || bool_decide (GetWriteConnectionSecretToReference o = None)
  then ret None
  else
    do ref <- deref (GetWriteConnectionSecretToReference mg);
    let n := {| nnNamespace := refNamespace ref; nnName := refName ref |} in
    let from := emptySecret in
    do r <- Get n from;
    if errOf r is Some _ then ret (errors.Wrap (errOf r) errGetSecret)
    else
      let from := objAfter r from in
      if match metav1.GetControllerOf from with
         | None => true
         | Some c => bool_decide (orUID c ≠ GetUID mg)
         end
      then ret (errors.New errSecretConflict)
      else
        do kind <- MustGetKind o (typer a);
        let to := LocalConnectionSecretFor o kind in
        let to := SetData (Data from) to in
        let '(from, to) := AllowPropagation from to in
        do applied <- client_Apply a (MetaObject to)
                        [ConnectionSecretMustBeControllableBy (GetUID o)];
        if applied.1 is Some _
        then ret (errors.Wrap applied.1 errCreateOrUpdateSecret)
        else
          do r <- Update from;
          ret (errors.Wrap (errOf r) errUpdateSecret).
End Api.
End resource.

(** ** Package managed: the lifecycle helpers *)

Module managed.
Import resource.

Definition errCreateOrUpdateSecret : string :=
  "cannot create or update connection secret".
Definition errUpdateManaged : string := "cannot update managed resource".
Definition errUpdateManagedStatus : string :=
  "cannot update managed resource status".

(** [ConnectionDetails], a map from keys to byte sequences. *)
Definition ConnectionDetails : Type := gmap string string.

(** [APIFinalizer]; its client is the ambient one. *)
Record APIFinalizer := { finalizer : string }.

Definition NewAPIFinalizer (finalizer : string) : APIFinalizer :=
  {| finalizer := finalizer |}.

Section Helpers.
Context {St : Type} `{Client St}.

(** [APIFinalizer.AddFinalizer] *)
Definition AddFinalizer (a : APIFinalizer) (mg : Object)
  : M St (option error * Object) :=
  if meta.FinalizerExists mg (finalizer a) then ret (None, mg)
  else
    let mg := meta.AddFinalizer mg (finalizer a) in
    do r <- Update mg;
    ret (errors.Wrap (errOf r) errUpdateManaged, objAfter r mg).

(** [APIFinalizer.RemoveFinalizer] *)
Definition RemoveFinalizer (a : APIFinalizer) (mg : Object)
  : M St (option error * Object) :=
  let mg := meta.RemoveFinalizer mg (finalizer a) in
  do r <- Update mg;
  ret (errors.Wrap (IgnoreNotFound (errOf r)) errUpdateManaged,
       objAfter r mg).

(** [NameAsExternalName.Initialize] *)
Definition Initialize (mg : Object) : M St (option error * Object) :=
  if bool_decide (meta.GetExternalName mg ≠ "") then ret (None, mg)
  else
    let mg := meta.SetExternalName mg (GetName mg) in
    do r <- Update mg;
    ret (errors.Wrap (errOf r) errUpdateManaged, objAfter r mg).

(** [APISecretPublisher] *)
Record APISecretPublisher := {
  secret : Applicator (St := St);
  typer : ObjectTyper }.

(** [NewAPISecretPublisher] injects a patching applicator. *)
Definition NewAPISecretPublisher (ot : ObjectTyper) : APISecretPublisher :=
  {| secret := APIPatchingApplicator_Apply; typer := ot |}.

Context `{Imports}.

(** [APISecretPublisher.PublishConnection] *)
Definition PublishConnection (a : APISecretPublisher) (mg : Object)
    (c : ConnectionDetails) : M St (option error) :=
  if bool_decide (GetWriteConnectionSecretToReference mg = None)
  then ret None
  else
    do kind <- MustGetKind mg (typer a);
    let s := ConnectionSecretFor mg kind in
    let s := SetData c s in
    do applied <- secret a (MetaObject s)
                    [ConnectionSecretMustBeControllableBy (GetUID mg)];
    ret (errors.Wrap applied.1 errCreateOrUpdateSecret).

(** [APISecretPublisher.UnpublishConnection] *)
Definition UnpublishConnection (a : APISecretPublisher) (mg : Object)
    (c : ConnectionDetails) : M St (option error) :=
  ret None.
End Helpers.
End managed.

(** ** The operations as a Go caller reaches them

    An argument of interface or func type may be nil, and [None] stands for
    that nil (for an interface, the nil interface value or a nil pointer in
    it): calling a method on it, or calling a nil func value, aborts the
    run.  An option that does not come back when called is no different
    for its caller, and [None] stands for it as well.  The receivers and
    what they hold (client, applicator, type resolver, finalizer) come from
    the constructors. *)

Module entry.
Import resource.

(** The [runtime.Object] handed to [Apply]: the nil interface value, an
    interface value holding a nil pointer to an object with metadata, or an
    object. *)
Inductive runtime_arg :=
| nilInterface
| nilPointer
| pointerTo (o : runtime_Object).

Section Entry.
Context {St : Type} `{Client St}.

(** The loop over the options, as func values that may be nil: the call
    [fn(ctx, x, y)] is made unchecked, and a nil one aborts the run when its
    turn comes. *)
Fixpoint callOptions (ao : list (option ApplyOption)) (x y : Object)
  : M St (option error * (Object * Object)) :=
  match ao with
  | [] => ret (None, (x, y))
  | fn :: rest =>
      do fn <- deref fn;
      match fn x y with
      | (Some err, xy) => ret (Some err, xy)
      | (None, (x', y')) => callOptions rest x' y'
      end
  end.

(** [APIPatchingApplicator.Apply].  The type assertion fails on the nil
    interface value; behind a nil pointer there is no name to read. *)
Definition APIPatchingApplicator_Apply (o : runtime_arg)
    (ao : list (option ApplyOption)) : M St (option error * runtime_arg) :=
  match o with
  | nilInterface | pointerTo (OpaqueObject _) =>
      ret (errors.New "cannot access object metadata", o)
  | nilPointer => panic "invalid memory address or nil pointer dereference"
  | pointerTo (MetaObject m) =>
      let desired := DeepCopyObject m in
      do r <- Get {| nnName := GetName m; nnNamespace := GetNamespace m |} m;
      let err := errOf r in
      let m := objAfter r m in
      if kerrors.IsNotFound err then
        do c <- Create m;
        ret (errors.Wrap (errOf c) "cannot create object",
             pointerTo (MetaObject (objAfter c m)))
      else if err is Some _ then
        ret (errors.Wrap err "cannot get object", pointerTo (MetaObject m))
      else
        do ran <- callOptions ao m desired;
        match ran with
        | (Some err, (m, _)) => ret (Some err, pointerTo (MetaObject m))
        | (None, (m, desired)) =>
            let p := {| from := desired |} in
            do r <- Patch m (patch_Type p) (patch_Data p m);
            ret (errors.Wrap (errOf r) "cannot patch object",
                 pointerTo (MetaObject (objAfter r m)))
        end
  end.

(** [APIUpdatingApplicator.Apply] *)
Definition APIUpdatingApplicator_Apply (o : runtime_arg)
    (ao : list (option ApplyOption)) : M St (option error * runtime_arg) :=
  match o with
  | nilInterface | pointerTo (OpaqueObject _) =>
      ret (errors.New "cannot access object metadata", o)
  | nilPointer => panic "invalid memory address or nil pointer dereference"
  | pointerTo (MetaObject m) =>
      let current := DeepCopyObject m in
      do r <- Get {| nnName := GetName m; nnNamespace := GetNamespace m |}
                  current;
      let err := errOf r in
      let current := objAfter r current in
      if kerrors.IsNotFound err then
        do c <- Create m;
        ret (errors.Wrap (errOf c) "cannot create object",
             pointerTo (MetaObject (objAfter c m)))
      else if err is Some _ then
        ret (errors.Wrap err "cannot get object", pointerTo (MetaObject m))
      else
        do ran <- callOptions ao current m;
        match ran with
        | (Some err, (_, m)) => ret (Some err, pointerTo (MetaObject m))
        | (None, (_, m)) =>
            do r <- Update m;
            ret (errors.Wrap (errOf r) "cannot update object",
                 pointerTo (MetaObject (objAfter r m)))
        end
  end.

(** [APIFinalizer.AddFinalizer], [APIFinalizer.RemoveFinalizer] and
    [NameAsExternalName.Initialize] start by reading the metadata of the
    managed resource. *)
Definition AddFinalizer (a : managed.APIFinalizer) (mg : option Object)
  : M St (option error * Object) :=
  do mg <- deref mg;
  managed.AddFinalizer a mg.

Definition RemoveFinalizer (a : managed.APIFinalizer) (mg : option Object)
  : M St (option error * Object) :=
  do mg <- deref mg;
  managed.RemoveFinalizer a mg.

Definition Initialize (mg : option Object) : M St (option error * Object) :=
  do mg <- deref mg;
  managed.Initialize mg.

Context `{Imports}.

(** [APIManagedConnectionPropagator.PropagateConnection]: the condition
    [mg.GetWriteConnectionSecretToReference() == nil ||
     o.GetWriteConnectionSecretToReference() == nil] calls a method on [mg]
    and, unless that already decides, one on [o]. *)
Definition PropagateConnection (a : APIManagedConnectionPropagator)
    (o mg : option Object) : M St (option error) :=
  do mg <- deref mg;
  if bool_decide (GetWriteConnectionSecretToReference mg = None)
  then ret None
  else
    do o <- deref o;
    resource.PropagateConnection a o mg.

(** [APISecretPublisher.PublishConnection] starts with
    [mg.GetWriteConnectionSecretToReference()]. *)
Definition PublishConnection (a : managed.APISecretPublisher)
    (mg : option Object) (c : managed.ConnectionDetails)
  : M St (option error) :=
  do mg <- deref mg;
  managed.PublishConnection a mg c.

(** [APISecretPublisher.UnpublishConnection] does not touch its arguments. *)
Definition UnpublishConnection (a : managed.APISecretPublisher (St := St))
    (mg : option Object) (c : managed.ConnectionDetails)
  : M St (option error) :=
  ret None.
End Entry.
End entry.

(** ** JSON merge patch (RFC 7386), what the API server does with the body
    of a merge patch *)

Module mergepatch.
Fixpoint lookupField (k : string) (fs : list (string * JSON))
  : option JSON :=
  match fs with
  | [] => None
  | (k', v) :: rest => if decide (k' = k) then Some v else lookupField k rest
  end.

Fixpoint removeField (k : string) (fs : list (string * JSON))
  : list (string * JSON) :=
  match fs with
  | [] => []
  | (k', v) :: rest =>
      if decide (k' = k) then removeField k rest
      else (k', v) :: removeField k rest
  end.

Fixpoint setField (k : string) (v : JSON) (fs : list (string * JSON))
  : list (string * JSON) :=
  match fs with
  | [] => [(k, v)]
  | (k', v') :: rest =>
      if decide (k' = k) then (k, v) :: removeField k rest
      else (k', v') :: setField k v rest
  end.

(** The loop over the members of the patch: a null member removes the
    name from the target, any other member is merged into it. *)
Fixpoint mergeFields (merge : JSON → JSON → JSON)
    (pfs tfs : list (string * JSON)) : list (string * JSON) :=
  match pfs with
  | [] => tfs
  | (name, value) :: rest =>
      mergeFields merge rest
        match value with
        | JNull => removeField name tfs
        | _ => setField name
                 (merge (default JNull (lookupField name tfs)) value) tfs
        end
  end.

Fixpoint MergePatch (target patch : JSON) {struct patch} : JSON :=
  match patch with
  | JObj pfs =>
      JObj (mergeFields MergePatch pfs
              match target with
              | JObj tfs => tfs
              | _ => []
              end)
  | _ => patch
  end.

(** The value of a document at a path of member names. *)
Fixpoint getPath (p : list string) (doc : JSON) : option JSON :=
  match p with
  | [] => Some doc
  | n :: rest =>
      match doc with
      | JObj fs => lookupField n fs ≫= getPath rest
      | _ => None
      end
  end.

(** The path is absent from the document: walking down the path, a name is
    not a member of the object reached.  A path that ends on a member, or
    runs through a member that is not an object, is not absent. *)
Fixpoint absent (p : list string) (doc : JSON) : bool :=
  match p, doc with
  | n :: rest, JObj fs =>
      forallb (λ kv, if decide (kv.1 = n)
                     then match rest with
                          | [] => false
                          | _ => absent rest kv.2
                          end
                     else true) fs
  | _, _ => false
  end.
End mergepatch.

(** ** Reading a document back into an object *)

Module decode.
Import mergepatch.

Definition strAt (k : string) (fs : list (string * JSON)) : string :=
  match lookupField k fs with
  | Some (JStr s) => s
  | _ => ""
  end.

Definition numAt (k : string) (fs : list (string * JSON)) : N :=
  match lookupField k fs with
  | Some (JNum n) => n
  | _ => 0%N
  end.

Definition boolPtrAt (k : string) (fs : list (string * JSON))
  : option bool :=
  match lookupField k fs with
  | Some (JBool b) => Some b
  | _ => None
  end.

Definition fieldsAt (k : string) (fs : list (string * JSON))
  : list (string * JSON) :=
  match lookupField k fs with
  | Some (JObj fs') => fs'
  | _ => []
  end.

Definition itemsAt (k : string) (fs : list (string * JSON)) : list JSON :=
  match lookupField k fs with
  | Some (JArr items) => items
  | _ => []
  end.

Definition stringItem (j : JSON) : option string :=
  match j with
  | JStr s => Some s
  | _ => None
  end.

(** The string that an object gives to a name: that of the first member
    with the name, if it is a string. *)
Definition stringAt (k : string) (fs : list (string * JSON))
  : option string :=
  lookupField k fs ≫= stringItem.

Definition stringMember (fs : list (string * JSON)) (kv : string * JSON)
  : option (string * string) :=
  (λ s, (kv.1, s)) <$> stringAt kv.1 fs.

Definition mapAt (k : string) (fs : list (string * JSON))
  : gmap string string :=
  list_to_map (omap (stringMember (fieldsAt k fs)) (fieldsAt k fs)).

Definition setAt (k : string) (fs : list (string * JSON)) : gset string :=
  list_to_set (omap stringItem (itemsAt k fs)).

Definition ownerReference (j : JSON) : option OwnerReference :=
  match j with
  | JObj fs =>
      Some {| orAPIVersion := strAt "apiVersion" fs;
              orKind := strAt "kind" fs;
              orName := strAt "name" fs;
              orUID := strAt "uid" fs;
              orController := boolPtrAt "controller" fs;
              orBlockOwnerDeletion := boolPtrAt "blockOwnerDeletion" fs |}
  | _ => None
  end.

Definition objectMeta (fs : list (string * JSON)) : ObjectMeta :=
  {| Name := strAt "name" fs;
     Namespace := strAt "namespace" fs;
     UID := strAt "uid" fs;
     ResourceVersion := numAt "resourceVersion" fs;
     Annotations := mapAt "annotations" fs;
     Finalizers := setAt "finalizers" fs;
     OwnerReferences := omap ownerReference (itemsAt "ownerReferences" fs) |}.

Definition secretReference (fs : list (string * JSON))
  : option SecretReference :=
  match lookupField "writeConnectionSecretToRef" fs with
  | Some (JObj r) =>
      Some {| refNamespace := strAt "namespace" r; refName := strAt "name" r |}
  | _ => None
  end.

Definition Unmarshal (doc : JSON) : Object :=
  match doc with
  | JObj fs =>
      {| Meta := objectMeta (fieldsAt "metadata" fs);
         WriteConnectionSecretToReference :=
           secretReference (fieldsAt "spec" fs);
         Data := mapAt "data" fs |}
  | _ => emptySecret
  end.
End decode.

(** ** A reference API server

    An in-memory store of versioned objects that implements [Client]: reads
    by key, creation of absent keys, full updates guarded by the version
    token, and merge patches applied to whatever is stored. *)

Module apiserver.
Abbreviation Store := (gmap (string * string) Object).

Definition storeKey (n : NamespacedName) : string * string :=
  (nnNamespace n, nnName n).

Definition notFound : error := StatusError StatusReasonNotFound "not found".
Definition alreadyExists : error :=
  StatusError StatusReasonAlreadyExists "already exists".
Definition conflict : error :=
  StatusError StatusReasonConflict "the object has been modified".
Definition unsupported : error :=
  StatusError StatusReasonUnsupportedMediaType "unsupported patch type".

Definition get (key : NamespacedName) (_ : Object) (s : Store)
  : Reply * Store :=
  match s !! storeKey key with
  | Some o => (Replied o, s)
  | None => (Failed notFound, s)
  end.

Definition create (obj : Object) (s : Store) : Reply * Store :=
  match s !! storeKey (keyOf obj) with
  | Some _ => (Failed alreadyExists, s)
  | None =>
      let o := SetResourceVersion 1 obj in
      (Replied o, <[storeKey (keyOf obj) := o]> s)
  end.

Definition update (obj : Object) (s : Store) : Reply * Store :=
  match s !! storeKey (keyOf obj) with
  | None => (Failed notFound, s)
  | Some cur =>
      if decide (GetResourceVersion obj = GetResourceVersion cur) then
        let o := SetResourceVersion (GetResourceVersion cur + 1) obj in
        (Replied o, <[storeKey (keyOf obj) := o]> s)
      else (Failed conflict, s)
  end.

Definition patch (obj : Object) (pt : PatchType) (body : JSON) (s : Store)
  : Reply * Store :=
  match s !! storeKey (keyOf obj) with
  | None => (Failed notFound, s)
  | Some cur =>
      match pt with
      | MergePatchType =>
          let merged :=
            decode.Unmarshal (mergepatch.MergePatch (json.Marshal cur) body) in
          let o := SetResourceVersion (GetResourceVersion cur + 1) merged in
          (Replied o, <[storeKey (keyOf obj) := o]> s)
      | _ => (Failed unsupported, s)
      end
  end.

#[export] Instance storeClient : Client Store :=
  {| client_Get := get;
     client_Create := create;
     client_Update := update;
     client_Patch := patch |}.

Definition start (s : Store) : World Store := mkWorld s [].
End apiserver.

(** ** An API server that cannot be reached: every call fails *)

Module unreachable.
Definition timeout : error :=
  StatusError StatusReasonUnknown "context deadline exceeded".

#[export] Instance downClient : Client unit :=
  {| client_Get := λ _ _ s, (Failed timeout, s);
     client_Create := λ _ s, (Failed timeout, s);
     client_Update := λ _ s, (Failed timeout, s);
     client_Patch := λ _ _ _ s, (Failed timeout, s) |}.

Definition start : World unit := mkWorld () [].
End unreachable.

(** ** A concrete setting

    One instance of the imported functions and a few objects, used to run the
    code on the reference API server. *)

Module scenario.
Import resource apiserver.

Definition controllerRef (o : Object) (kind : GroupVersionKind)
  : OwnerReference :=
  {| orAPIVersion := gvkGroup kind +:+ "/" +:+ gvkVersion kind;
     orKind := gvkKind kind;
     orName := GetName o;
     orUID := GetUID o;
     orController := Some true;
     orBlockOwnerDeletion := Some true |}.

Definition secretNamed (namespace name : string) (owner : OwnerReference)
  : Object :=
  {| Meta := {| Name := name; Namespace := namespace; UID := "";
                ResourceVersion := 0; Annotations := ∅; Finalizers := ∅;
                OwnerReferences := [owner] |};
     WriteConnectionSecretToReference := None;
     Data := ∅ |}.

(** Modelled from the spec: [LocalConnectionSecretFor] is declared outside
    the files studied; the destination secret takes its identity from the
    owner's namespace and configured reference and is controlled by the
    owner. *)
Definition localConnectionSecretFor (o : Object) (kind : GroupVersionKind)
  : Object :=
  secretNamed (GetNamespace o)
    (default "" (refName <$> GetWriteConnectionSecretToReference o))
    (controllerRef o kind).

(** Modelled from the spec: [ConnectionSecretFor] is declared outside the
    files studied; the secret is scoped to the managed resource and its
    declared reference. *)
Definition connectionSecretFor (mg : Object) (kind : GroupVersionKind)
  : Object :=
  secretNamed
    (default "" (refNamespace <$> GetWriteConnectionSecretToReference mg))
    (default "" (refName <$> GetWriteConnectionSecretToReference mg))
    (controllerRef mg kind).

(** Modelled from the spec: [ConnectionSecretMustBeControllableBy] is
    declared outside the files studied; an existing secret must be
    controlled by the given UID, it only inspects the current object. *)
Definition connectionSecretMustBeControllableBy (uid : string)
  : ApplyOption := λ current desired,
  match metav1.GetControllerOf current with
  | Some c =>
      if decide (orUID c = uid) then (None, (current, desired))
      else (errors.New "existing secret is not controlled by UID",
            (current, desired))
  | None => (None, (current, desired))
  end.

(** Modelled from the spec: [meta.AllowPropagation] is declared outside the
    files studied; it marks the source secret with the destination that may
    receive a copy. *)
Definition allowPropagation (from to : Object) : Object * Object :=
  (SetAnnotations
     (<["crossplane.io/propagate-to" :=
          GetNamespace to +:+ "/" +:+ GetName to]> (GetAnnotations from))
     from,
   to).

#[export] Instance imports : Imports :=
  {| LocalConnectionSecretFor := localConnectionSecretFor;
     ConnectionSecretFor := connectionSecretFor;
     ConnectionSecretMustBeControllableBy :=
       connectionSecretMustBeControllableBy;
     AllowPropagation := allowPropagation |}.

Definition kindOf (group kind : string) : GroupVersionKind :=
  {| gvkGroup := group; gvkVersion := "v1"; gvkKind := kind |}.

(** A type resolver that knows every object, and one that knows none. *)
Definition knownTyper : ObjectTyper :=
  λ _, Some (kindOf "example.org" "Database").
Definition unknownTyper : ObjectTyper := λ _, None.

Definition object (namespace name uid : string) (version : N)
    (owners : list OwnerReference) (ref : option SecretReference)
    (data : gmap string string) : Object :=
  {| Meta := {| Name := name; Namespace := namespace; UID := uid;
                ResourceVersion := version; Annotations := ∅;
                Finalizers := ∅; OwnerReferences := owners |};
     WriteConnectionSecretToReference := ref;
     Data := data |}.

(** Managed resource [db-1] (UID [u1]) publishing to secret [creds]. *)
Definition db1 : Object :=
  object "infra" "db-1" "u1" 3 []
    (Some {| refNamespace := "infra"; refName := "creds" |}) ∅.

(** The claim [app] (UID [c1]) that wants a copy in secret [app-creds]. *)
Definition app : Object :=
  object "team" "app" "c1" 2 []
    (Some {| refNamespace := ""; refName := "app-creds" |}) ∅.

Definition payload : gmap string string :=
  {[ "user" := "a"; "pass" := "b" ]}.

(** Secret [creds], controlled by the given UID. *)
Definition creds (controller : string) : Object :=
  object "infra" "creds" "s1" 5
    [{| orAPIVersion := "example.org/v1"; orKind := "Database";
        orName := "db-1"; orUID := controller;
        orController := Some true; orBlockOwnerDeletion := Some true |}]
    None payload.

(** An option that succeeds and adjusts the desired object in place. *)
Definition touch : ApplyOption := λ current desired,
  (None,
   (current,
    SetAnnotations (<["touched" := "yes"]> (GetAnnotations desired)) desired)).

Definition storeOf (objs : list Object) : apiserver.Store :=
  list_to_map ((λ o, (apiserver.storeKey (keyOf o), o)) <$> objs).

Definition credsRef : SecretReference :=
  {| refNamespace := "infra"; refName := "creds" |}.
Definition appRef : SecretReference :=
  {| refNamespace := ""; refName := "app-creds" |}.

(** The propagator and the finalizer helper, on the reference API server. *)
Definition propagator
  : APIManagedConnectionPropagator (St := apiserver.Store) :=
  NewAPIManagedConnectionPropagator knownTyper.

Definition finalizerOf : managed.APIFinalizer :=
  managed.NewAPIFinalizer "finalizer.example.org".

(** [db-1] holding the token of [finalizerOf]. *)
Definition held : Object := meta.AddFinalizer db1 "finalizer.example.org".
End scenario.

(** * Properties *)

(** ** Running a computation *)

Section Running.
Context {St : Type} `{Client St}.

Lemma run_ret {A} (a : A) (w : World St) : ret a w = (Returned a, w).
Proof. reflexivity. Qed.

Lemma run_bind_returned {A B} (c : M St A) (k : A → M St B) w a w' :
  c w = (Returned a, w') → bind c k w = k a w'.
Proof. intros Hc. unfold bind. by rewrite Hc. Qed.

Lemma run_bind_panicked {A B} (c : M St A) (k : A → M St B) w r w' :
  c w = (Panicked r, w') → bind c k w = (Panicked r, w').
Proof. intros Hc. unfold bind. by rewrite Hc. Qed.

Lemma run_issue (c : Call) f (w : World St) r s :
  f (store w) = (r, s) →
  issue c f w = (Returned r, mkWorld s (calls w ++ [c])).
Proof. intros Hf. unfold issue. by rewrite Hf. Qed.

Lemma run_Get key into (w : World St) r s :
  client_Get key into (store w) = (r, s) →
  Get key into w = (Returned r, mkWorld s (calls w ++ [CallGet key into])).
Proof. apply run_issue. Qed.

Lemma run_Create obj (w : World St) r s :
  client_Create obj (store w) = (r, s) →
  Create obj w = (Returned r, mkWorld s (calls w ++ [CallCreate obj])).
Proof. apply run_issue. Qed.

Lemma run_Update obj (w : World St) r s :
  client_Update obj (store w) = (r, s) →
  Update obj w = (Returned r, mkWorld s (calls w ++ [CallUpdate obj])).
Proof. apply run_issue. Qed.

Lemma run_Patch obj pt data (w : World St) r s :
  client_Patch obj pt data (store w) = (r, s) →
  Patch obj pt data w
  = (Returned r, mkWorld s (calls w ++ [CallPatch obj pt data])).
Proof. apply run_issue. Qed.
End Running.

Tactic Notation "run_call" uconstr(L) constr(H) :=
  rewrite (run_bind_returned _ _ _ _ _ (L _ _ _ _ _ H));
  cbn [errOf objAfter].

Lemma app_two {A} (l : list A) (x y : A) : (l ++ [x]) ++ [y] = l ++ [x; y].
Proof. by rewrite <- app_assoc. Qed.

(** ** The applicators *)

Section Applicators.
Import resource.
Context {St : Type} `{Client St}.
Implicit Types (m current : Object) (ao : list ApplyOption) (w : World St).

(** The create path, shared by the two applicators up to the object the
    read is made into. *)
Lemma patching_Apply_not_found m ao w e s1 c s2 :
  client_Get (keyOf m) m (store w) = (Failed e, s1) →
  kerrors.IsNotFound (Some e) = true →
  client_Create m s1 = (c, s2) →
  APIPatchingApplicator_Apply (MetaObject m) ao w
  = (Returned (errors.Wrap (errOf c) "cannot create object",
               MetaObject (objAfter c m)),
     mkWorld s2 (calls w ++ [CallGet (keyOf m) m; CallCreate m])).
Proof.
  intros Hget Hnf Hcreate.
  unfold APIPatchingApplicator_Apply. cbn [asMetaObject].
  run_call run_Get Hget. rewrite Hnf.
  rewrite (run_bind_returned _ _ _ c
             (mkWorld s2 (calls w ++ [CallGet (keyOf m) m; CallCreate m]))).
  - reflexivity.
  - rewrite <- app_two. by apply (run_Create m (mkWorld s1 _)).
Qed.

Lemma updating_Apply_not_found m ao w e s1 c s2 :
  client_Get (keyOf m) m (store w) = (Failed e, s1) →
  kerrors.IsNotFound (Some e) = true →
  client_Create m s1 = (c, s2) →
  APIUpdatingApplicator_Apply (MetaObject m) ao w
  = (Returned (errors.Wrap (errOf c) "cannot create object",
               MetaObject (objAfter c m)),
     mkWorld s2 (calls w ++ [CallGet (keyOf m) m; CallCreate m])).
Proof.
  intros Hget Hnf Hcreate.
  unfold APIUpdatingApplicator_Apply. cbn [asMetaObject].
  run_call run_Get Hget. rewrite Hnf.
  rewrite (run_bind_returned _ _ _ c
             (mkWorld s2 (calls w ++ [CallGet (keyOf m) m; CallCreate m]))).
  - reflexivity.
  - rewrite <- app_two. by apply (run_Create m (mkWorld s1 _)).
Qed.

(** The update path of the updating applicator. *)
Lemma updating_Apply_existing m ao w current s1 current' m' u s2 :
  client_Get (keyOf m) m (store w) = (Replied current, s1) →
  runOptions ao current m = (None, (current', m')) →
  client_Update m' s1 = (u, s2) →
  APIUpdatingApplicator_Apply (MetaObject m) ao w
  = (Returned (errors.Wrap (errOf u) "cannot update object",
               MetaObject (objAfter u m')),
     mkWorld s2 (calls w ++ [CallGet (keyOf m) m; CallUpdate m'])).
Proof.
  intros Hget Hopts Hupdate.
  unfold APIUpdatingApplicator_Apply. cbn [asMetaObject].
  run_call run_Get Hget. cbn [kerrors.IsNotFound]. rewrite Hopts.
  rewrite (run_bind_returned _ _ _ u
             (mkWorld s2 (calls w ++ [CallGet (keyOf m) m; CallUpdate m']))).
  - reflexivity.
  - rewrite <- app_two. by apply (run_Update m' (mkWorld s1 _)).
Qed.

Lemma updating_Apply_vetoed m ao w current s1 err current' m' :
  client_Get (keyOf m) m (store w) = (Replied current, s1) →
  runOptions ao current m = (Some err, (current', m')) →
  APIUpdatingApplicator_Apply (MetaObject m) ao w
  = (Returned (Some err, MetaObject m'),
     mkWorld s1 (calls w ++ [CallGet (keyOf m) m])).
Proof.
  intros Hget Hopts.
  unfold APIUpdatingApplicator_Apply. cbn [asMetaObject].
  run_call run_Get Hget. cbn [kerrors.IsNotFound]. by rewrite Hopts.
Qed.

(** The patch path of the patching applicator: the options run on the
    object read and on the snapshot, the body is the snapshot as they leave
    it. *)
Lemma patching_Apply_existing m ao w current s1 current' desired' p s2 :
  client_Get (keyOf m) m (store w) = (Replied current, s1) →
  runOptions ao current m = (None, (current', desired')) →
  client_Patch current' MergePatchType (json.Marshal desired') s1 = (p, s2) →
  APIPatchingApplicator_Apply (MetaObject m) ao w
  = (Returned (errors.Wrap (errOf p) "cannot patch object",
               MetaObject (objAfter p current')),
     mkWorld s2 (calls w ++ [CallGet (keyOf m) m;
                             CallPatch current' MergePatchType
                               (json.Marshal desired')])).
Proof.
  intros Hget Hopts Hpatch.
  unfold APIPatchingApplicator_Apply. cbn [asMetaObject].
  run_call run_Get Hget. cbn [kerrors.IsNotFound].
  unfold DeepCopyObject. rewrite Hopts.
  rewrite (run_bind_returned _ _ _ p
             (mkWorld s2 (calls w ++ [CallGet (keyOf m) m;
                CallPatch current' MergePatchType (json.Marshal desired')]))).
  - reflexivity.
  - rewrite <- app_two.
    by apply (run_Patch current' _ _ (mkWorld s1 _)).
Qed.

Lemma runOptions_keepsSecond ao x y :
  Forall keepsSecond ao → (runOptions ao x y).2.2 = y.
Proof.
  intros Hao. revert x y. induction Hao as [|fn ao Hfn _ IH]; intros x y.
  - reflexivity.
  - simpl. specialize (Hfn x y).
    destruct (fn x y) as [[err|] [x' y']]; simpl in *.
    + done.
    + rewrite IH. done.
Qed.
End Applicators.

Section ApplicatorClaims.
Import resource.
Context {St : Type} `{Client St}.
Implicit Types (m current : Object) (ao : list ApplyOption) (w : World St).

(** C6.  For both applicators: when the read of the object's key reports
    not-found, [Apply] issues the read and then one create of the object
    exactly as the caller supplied it, and returns; its error is the create
    error wrapped with "cannot create object" (nil when the create
    succeeds).  No option is invoked: the run is the one with no options
    at all. *)
Theorem Apply_not_found_creates m ao w e s1 c s2 :
  client_Get (keyOf m) m (store w) = (Failed e, s1) →
  kerrors.IsNotFound (Some e) = true →
  client_Create m s1 = (c, s2) →
  let created :=
    (Returned (errors.Wrap (errOf c) "cannot create object",
               MetaObject (objAfter c m)),
     mkWorld s2 (calls w ++ [CallGet (keyOf m) m; CallCreate m])) in
  APIPatchingApplicator_Apply (MetaObject m) ao w = created
  ∧ APIUpdatingApplicator_Apply (MetaObject m) ao w = created
  ∧ APIPatchingApplicator_Apply (MetaObject m) ao w
    = APIPatchingApplicator_Apply (MetaObject m) [] w
  ∧ APIUpdatingApplicator_Apply (MetaObject m) ao w
    = APIUpdatingApplicator_Apply (MetaObject m) [] w.
Proof.
  intros Hget Hnf Hcreate created.
  pose proof (patching_Apply_not_found m ao w e s1 c s2 Hget Hnf Hcreate) as Hp.
  pose proof (updating_Apply_not_found m ao w e s1 c s2 Hget Hnf Hcreate) as Hu.
  pose proof (patching_Apply_not_found m [] w e s1 c s2 Hget Hnf Hcreate) as Hp0.
  pose proof (updating_Apply_not_found m [] w e s1 c s2 Hget Hnf Hcreate) as Hu0.
  subst created. repeat split; congruence.
Qed.

(** C2, as the code has it.  On an object that exists and with options that
    all succeed, the updating applicator issues the read and then one full
    update of the caller's object as the options leave it, with that
    object's own resource version: the version read into the current copy
    is not transferred (when no option touches its second argument the
    object sent is the caller's, unchanged).  The store's verdict on the
    update reaches the caller wrapped with "cannot update object". *)
Theorem updating_Apply_sends_caller_object
    m ao w current s1 current' m' u s2 :
  client_Get (keyOf m) m (store w) = (Replied current, s1) →
  runOptions ao current m = (None, (current', m')) →
  client_Update m' s1 = (u, s2) →
  APIUpdatingApplicator_Apply (MetaObject m) ao w
  = (Returned (match u with
               | Failed e => Some (withMessage e "cannot update object")
               | Replied _ => None
               end,
               MetaObject (objAfter u m')),
     mkWorld s2 (calls w ++ [CallGet (keyOf m) m; CallUpdate m']))
  ∧ (Forall keepsSecond ao → m' = m).
Proof.
  intros Hget Hopts Hupdate. split.
  - rewrite (updating_Apply_existing _ _ _ _ _ _ _ _ _ Hget Hopts Hupdate).
    by destruct u.
  - intros Hkeep.
    pose proof (runOptions_keepsSecond ao current m Hkeep) as Hsnd.
    by rewrite Hopts in Hsnd.
Qed.

End ApplicatorClaims.

(** ** The connection propagator *)

Section PropagatorClaims.
Import resource.
Context {St : Type} `{Client St} `{Imports}.
Implicit Types (o mg from : Object) (w : World St).

(** Up to the ownership check: both references configured and the source
    secret read. *)
Lemma PropagateConnection_after_read a o mg w ref oref from s1 :
  GetWriteConnectionSecretToReference mg = Some ref →
  GetWriteConnectionSecretToReference o = Some oref →
  client_Get {| nnNamespace := refNamespace ref; nnName := refName ref |}
    emptySecret (store w) = (Replied from, s1) →
  PropagateConnection a o mg w
  = (if match metav1.GetControllerOf from with
        | None => true
        | Some c => bool_decide (orUID c ≠ GetUID mg)
        end
     then ret (errors.New errSecretConflict)
     else
       do kind <- MustGetKind o (typer a);
       let to := LocalConnectionSecretFor o kind in
       let to := SetData (Data from) to in
       let '(from, to) := AllowPropagation from to in
       do applied <- client_Apply a (MetaObject to)
                       [ConnectionSecretMustBeControllableBy (GetUID o)];
       if applied.1 is Some _
       then ret (errors.Wrap applied.1 errCreateOrUpdateSecret)
       else
         do r <- Update from;
         ret (errors.Wrap (errOf r) errUpdateSecret))
      (mkWorld s1
         (calls w ++
          [CallGet {| nnNamespace := refNamespace ref;
                      nnName := refName ref |} emptySecret])).
Proof.
  intros Hmg Ho Hget. unfold PropagateConnection.
  rewrite Hmg, Ho. cbn [bool_decide decide_rel orb].
  rewrite !bool_decide_eq_false_2 by done. cbn [orb deref].
  unfold bind at 1. rewrite run_ret.
  by run_call run_Get Hget.
Qed.

(** C1.  With both secret references configured and the source secret read:
    when the secret has no controller reference, or one whose UID is not the
    managed resource's, [PropagateConnection] returns the ownership-conflict
    error and the read is the only call it has issued: no write of the
    destination secret, no update of the source secret. *)
Theorem PropagateConnection_ownership_conflict a o mg w ref oref from s1 :
  GetWriteConnectionSecretToReference mg = Some ref →
  GetWriteConnectionSecretToReference o = Some oref →
  client_Get {| nnNamespace := refNamespace ref; nnName := refName ref |}
    emptySecret (store w) = (Replied from, s1) →
  (metav1.GetControllerOf from = None
   ∨ ∃ c, metav1.GetControllerOf from = Some c ∧ orUID c ≠ GetUID mg) →
  ∃ w',
    PropagateConnection a o mg w
    = (Returned (errors.New errSecretConflict), w')
    ∧ store w' = s1
    ∧ calls w'
      = calls w ++ [CallGet {| nnNamespace := refNamespace ref;
                               nnName := refName ref |} emptySecret]
    ∧ filter (λ c, isWrite c = true) (calls w')
      = filter (λ c, isWrite c = true) (calls w).
Proof.
  intros Hmg Ho Hget Hctl. eexists. split; [|split; [|split]].
  - rewrite (PropagateConnection_after_read a o mg w ref oref from s1) by done.
    destruct Hctl as [-> | (c & -> & Hne)].
    + reflexivity.
    + by rewrite bool_decide_eq_true_2.
  - reflexivity.
  - reflexivity.
  - cbn [calls]. rewrite filter_app. cbn. by rewrite app_nil_r.
Qed.
End PropagatorClaims.

Section PropagatorOrder.
Import resource.
Context {St : Type} `{Client St} `{Imports}.
Implicit Types (o mg from m : Object) (w : World St).


End PropagatorOrder.

(** ** The lifecycle helpers *)

Lemma SetFinalizers_same (o : Object) : SetFinalizers (GetFinalizers o) o = o.
Proof. by destruct o as [[] ? ?]. Qed.

Lemma GetFinalizers_Set (f : gset string) (o : Object) :
  GetFinalizers (SetFinalizers f o) = f.
Proof. reflexivity. Qed.

Section LifecycleClaims.
Import resource managed.
Context {St : Type} `{Client St}.
Implicit Types (a : APIFinalizer) (mg : Object) (w : World St).

Lemma AddFinalizer_present a mg w :
  meta.FinalizerExists mg (finalizer a) = true →
  AddFinalizer a mg w = (Returned (None, mg), w).
Proof. intros Hex. unfold AddFinalizer. by rewrite Hex. Qed.

(** C7.  On a managed resource that already holds the token,
    [AddFinalizer] returns nil, leaves the resource as it is and issues no
    call.  Whatever the first call did, the resource holds the token after
    it (the client's answer to an update keeps the finalizers it was sent),
    so a second call with the same token is that no-op: same finalizer set,
    no further call. *)
Theorem AddFinalizer_idempotent a mg w :
  (meta.FinalizerExists mg (finalizer a) = true →
   AddFinalizer a mg w = (Returned (None, mg), w))
  ∧ (UpdateKeepsFinalizers St →
     ∃ err mg1 w1,
       AddFinalizer a mg w = (Returned (err, mg1), w1)
       ∧ finalizer a ∈ GetFinalizers mg1
       ∧ AddFinalizer a mg1 w1 = (Returned (None, mg1), w1)).
Proof.
  split; [apply AddFinalizer_present|].
  intros Hkeeps.
  assert (Hholds : ∀ mg1 w1, finalizer a ∈ GetFinalizers mg1 →
            AddFinalizer a mg1 w1 = (Returned (None, mg1), w1)).
  { intros mg1 w1 Hin. apply AddFinalizer_present.
    by apply bool_decide_eq_true_2. }
  destruct (meta.FinalizerExists mg (finalizer a)) eqn:Hex.
  - exists None, mg, w. apply bool_decide_eq_true_1 in Hex.
    split; [|split]; [|done|]; by apply Hholds.
  - unfold AddFinalizer at 1. rewrite Hex.
    destruct (client_Update (meta.AddFinalizer mg (finalizer a)) (store w))
      as [u s1] eqn:Hupdate.
    rewrite (run_bind_returned _ _ _ _ _ (run_Update _ _ _ _ Hupdate)).
    rewrite run_ret.
    assert (Hin : finalizer a ∈ GetFinalizers
                    (objAfter u (meta.AddFinalizer mg (finalizer a)))).
    { destruct u as [e|o']; cbn [objAfter].
      - unfold meta.AddFinalizer. rewrite GetFinalizers_Set. set_solver.
      - rewrite (Hkeeps _ _ _ _ Hupdate).
        unfold meta.AddFinalizer. rewrite GetFinalizers_Set. set_solver. }
    eexists _, _, _. split; [reflexivity|]. split; [done|]. by apply Hholds.
Qed.

(** C8.  [RemoveFinalizer] takes the token out of the finalizer set (the
    other tokens stay; without the token the resource is unchanged) and
    issues one update of the result.  A not-found answer to that update
    gives nil, as success does; any other error is returned wrapped with
    "cannot update managed resource". *)
Theorem RemoveFinalizer_swallows_not_found a mg w :
  let removed := meta.RemoveFinalizer mg (finalizer a) in
  let u := (client_Update removed (store w)).1 in
  RemoveFinalizer a mg w
  = (Returned (match u with
               | Replied _ => None
               | Failed e =>
                   if kerrors.IsNotFound (Some e) then None
                   else Some (withMessage e errUpdateManaged)
               end,
               objAfter u removed),
     mkWorld (client_Update removed (store w)).2
       (calls w ++ [CallUpdate removed]))
  ∧ GetFinalizers removed = GetFinalizers mg ∖ {[finalizer a]}
  ∧ (finalizer a ∉ GetFinalizers mg → removed = mg).
Proof.
  intros removed u. split; [|split].
  - unfold RemoveFinalizer. fold removed.
    destruct (client_Update removed (store w)) as [u' s1] eqn:Hupdate.
    rewrite (run_bind_returned _ _ _ _ _ (run_Update _ _ _ _ Hupdate)).
    subst u. cbn [fst snd]. rewrite run_ret. unfold IgnoreNotFound.
    destruct u' as [e|o']; cbn [errOf]; [|done].
    by destruct (kerrors.IsNotFound (Some e)).
  - reflexivity.
  - intros Hnotin. subst removed. unfold meta.RemoveFinalizer.
    rewrite difference_disjoint_L by (by apply disjoint_singleton_r).
    apply SetFinalizers_same.
Qed.

(** C9.  With a non-empty external-name annotation, [Initialize] returns
    nil, leaves the resource as it is and issues no call.  With an empty
    one, it sets the annotation to the resource's name and issues one full
    update of the result, whose error it returns wrapped. *)
Theorem Initialize_external_name mg w :
  (meta.GetExternalName mg ≠ "" →
   Initialize mg w = (Returned (None, mg), w))
  ∧ (meta.GetExternalName mg = "" →
     let named := meta.SetExternalName mg (GetName mg) in
     let u := (client_Update named (store w)).1 in
     meta.GetExternalName named = GetName mg
     ∧ Initialize mg w
       = (Returned (errors.Wrap (errOf u) errUpdateManaged, objAfter u named),
          mkWorld (client_Update named (store w)).2
            (calls w ++ [CallUpdate named]))).
Proof.
  split.
  - intros Hset. unfold Initialize. by rewrite bool_decide_eq_true_2.
  - intros Hempty named u. split.
    + unfold meta.GetExternalName, named, meta.SetExternalName.
      cbn. by rewrite lookup_insert_eq.
    + unfold Initialize. rewrite bool_decide_eq_false_2 by (by intros ?).
      fold named.
      destruct (client_Update named (store w)) as [u' s1] eqn:Hupdate.
      by rewrite (run_bind_returned _ _ _ _ _ (run_Update _ _ _ _ Hupdate)).
Qed.
End LifecycleClaims.

(** ** Merge patches leave what they do not name *)

Section MergePatchFrame.
Import mergepatch.
Implicit Types (fs pfs tfs : list (string * JSON)) (p : list string).

Lemma lookupField_removeField_ne k n fs :
  k ≠ n → lookupField n (removeField k fs) = lookupField n fs.
Proof.
  intros Hne. induction fs as [|[k' v] fs IH]; [done|]. cbn.
  destruct (decide (k' = k)) as [->|Hk].
  - by rewrite decide_False.
  - cbn. by rewrite IH.
Qed.

Lemma lookupField_setField_ne k n v fs :
  k ≠ n → lookupField n (setField k v fs) = lookupField n fs.
Proof.
  intros Hne. induction fs as [|[k' v'] fs IH]; cbn.
  - by rewrite decide_False.
  - destruct (decide (k' = k)) as [->|Hk]; cbn.
    + rewrite !decide_False by done. by apply lookupField_removeField_ne.
    + by rewrite IH.
Qed.

Lemma lookupField_setField_eq k v fs :
  lookupField k (setField k v fs) = Some v.
Proof.
  induction fs as [|[k' v'] fs IH]; cbn.
  - by rewrite decide_True.
  - destruct (decide (k' = k)) as [->|Hk]; cbn.
    + by rewrite decide_True.
    + by rewrite decide_False.
Qed.

Lemma MergePatch_object target pfs :
  MergePatch target (JObj pfs)
  = JObj (mergeFields MergePatch pfs
            match target with
            | JObj tfs => tfs
            | _ => []
            end).
Proof. reflexivity. Qed.

Lemma getPath_of_null p : p ≠ [] → getPath p JNull = None.
Proof. by destruct p. Qed.

(** One level of the frame property, given the property below it. *)
Lemma mergeFields_frame n rest pfs :
  rest ≠ [] →
  (∀ target patch,
     absent rest patch = true →
     getPath rest (MergePatch target patch) = getPath rest target) →
  ∀ tfs,
    forallb (λ kv, if decide (kv.1 = n) then absent rest kv.2 else true)
      pfs = true →
    lookupField n (mergeFields MergePatch pfs tfs) ≫= getPath rest
    = lookupField n tfs ≫= getPath rest.
Proof.
  intros Hrest IH. induction pfs as [|[k v] pfs IHpfs]; intros tfs Hall.
  - reflexivity.
  - cbn in Hall. apply andb_true_iff in Hall as [Hv Hall].
    cbn [mergeFields]. rewrite IHpfs by done. clear IHpfs Hall.
    destruct (decide (k = n)) as [->|Hk].
    + assert (Hobj : ∃ vfs, v = JObj vfs).
      { destruct v; try (by destruct rest); eauto. }
      destruct Hobj as [vfs ->].
      rewrite lookupField_setField_eq. cbn [mbind option_bind].
      rewrite IH by done.
      destruct (lookupField n tfs); [done|].
      cbn. by apply getPath_of_null.
    + destruct v;
        by rewrite ?lookupField_removeField_ne, ?lookupField_setField_ne.
Qed.

(** A path absent from the patch has, after the merge, the value it had in
    the target, whatever the target is. *)
Lemma MergePatch_frame p :
  ∀ target patch,
    absent p patch = true →
    getPath p (MergePatch target patch) = getPath p target.
Proof.
  induction p as [|n rest IH]; intros target patch Habs.
  - by destruct patch.
  - destruct patch as [| | | | |pfs]; try done.
    rewrite MergePatch_object. cbn [getPath].
    destruct rest as [|n' rest'].
    + (* the path ends here: the name is no member of the patch *)
      assert (Hkeep : ∀ tfs,
                lookupField n (mergeFields MergePatch pfs tfs)
                = lookupField n tfs).
      { cbn in Habs. clear IH. induction pfs as [|[k v] pfs IHpfs];
          intros tfs; [done|].
        cbn in Habs. apply andb_true_iff in Habs as [Hk Hall].
        destruct (decide (k = n)) as [->|Hk']; [done|].
        cbn [mergeFields]. rewrite IHpfs by done.
        destruct v;
          by rewrite ?lookupField_removeField_ne, ?lookupField_setField_ne. }
      rewrite Hkeep. by destruct target.
    + rewrite (mergeFields_frame n (n' :: rest') pfs); [| done | exact IH | ].
      * by destruct target.
      * exact Habs.
Qed.

Lemma absent_stringMap (m : gmap string string) k :
  m !! k = None → absent [k] (JObj (json.stringMap m)) = true.
Proof.
  intros Hk. cbn. apply forallb_forall. intros [k' v] Hin.
  apply list_elem_of_In, list_elem_of_fmap in Hin as ([k'' v'] & Heq & Hin).
  cbn in Heq. injection Heq as -> ->.
  apply elem_of_map_to_list in Hin. cbn.
  destruct (decide (k'' = k)) as [->|]; [congruence|done].
Qed.

Lemma absent_omitMap name (m : gmap string string) k :
  m !! k = None →
  forallb (λ kv, if decide (kv.1 = name) then absent [k] kv.2 else true)
    (json.omitMap name m) = true.
Proof.
  intros Hk. unfold json.omitMap. destruct (decide (m = ∅)); [done|].
  cbn [forallb fst snd]. rewrite decide_True by done.
  by rewrite (absent_stringMap m k Hk).
Qed.

(** An annotation that the object does not have is absent from its
    document, and so is a payload key that it does not have. *)
Lemma absent_annotation (o : Object) k :
  GetAnnotations o !! k = None →
  absent ["metadata"; "annotations"; k] (json.Marshal o) = true.
Proof.
  intros Hk. unfold json.Marshal. cbn [absent app forallb fst snd].
  rewrite decide_True by done. apply andb_true_iff. split.
  - unfold json.objectMeta. cbn [absent].
    rewrite !forallb_app, !andb_true_iff.
    repeat split;
      try (unfold json.omitStr, json.omitNum, json.omitSet, json.omitOwners;
           repeat case_decide; try case_match; done).
    by apply absent_omitMap.
  - rewrite forallb_app, andb_true_iff. split.
    + unfold json.omitSpec. by case_match.
    + unfold json.omitMap. by case_decide.
Qed.

Lemma absent_payload (o : Object) k :
  Data o !! k = None → absent ["data"; k] (json.Marshal o) = true.
Proof.
  intros Hk. unfold json.Marshal. cbn [absent app forallb fst snd].
  rewrite decide_False by done. cbn [andb].
  rewrite forallb_app, andb_true_iff. split.
  - unfold json.omitSpec. by case_match.
  - by apply absent_omitMap.
Qed.
End MergePatchFrame.

(** ** The reference server's merge patch, on objects *)

Section StoreFrame.
Import mergepatch apiserver.
Implicit Types (fs : list (string * JSON)) (o cur : Object).

Lemma lookupField_app k fs1 fs2 :
  lookupField k (fs1 ++ fs2)
  = match lookupField k fs1 with
    | Some v => Some v
    | None => lookupField k fs2
    end.
Proof.
  induction fs1 as [|[k' v] fs1 IH]; [done|]. cbn.
  by destruct (decide (k' = k)).
Qed.

Lemma lookupField_stringMap (m : gmap string string) k :
  lookupField k (json.stringMap m) = JStr <$> m !! k.
Proof.
  unfold json.stringMap. rewrite <- (list_to_map_to_list m) at 2.
  induction (map_to_list m) as [|[k' v] l IH]; [done|]. cbn.
  destruct (decide (k' = k)) as [->|Hk].
  - by rewrite lookup_insert_eq.
  - by rewrite lookup_insert_ne.
Qed.

Lemma mapAt_lookup name fs k :
  decode.mapAt name fs !! k = decode.stringAt k (decode.fieldsAt name fs).
Proof.
  unfold decode.mapAt. set (members := decode.fieldsAt name fs).
  destruct (list_to_map _ !! k) as [s|] eqn:Hlookup.
  - apply elem_of_list_to_map_2, list_elem_of_omap in Hlookup
      as ([k' v] & _ & Hmember).
    unfold decode.stringMember in Hmember. cbn in Hmember.
    destruct (decode.stringAt k' members) as [s'|] eqn:Hat; [|done].
    cbn in Hmember. by injection Hmember as -> ->.
  - apply not_elem_of_list_to_map_2 in Hlookup.
    destruct (decode.stringAt k members) as [s|] eqn:Hat; [|done].
    exfalso. apply Hlookup. apply list_elem_of_fmap. exists (k, s).
    split; [done|]. apply list_elem_of_omap.
    unfold decode.stringAt in Hat.
    destruct (lookupField k members) as [v|] eqn:Hfield; [|done].
    exists (k, v). split.
    + clear -Hfield. induction members as [|[k' v'] members IH]; [done|].
      cbn in Hfield. destruct (decide (k' = k)) as [->|].
      * injection Hfield as ->. left.
      * right. by apply IH.
    + unfold decode.stringMember, decode.stringAt. cbn. rewrite Hfield.
      cbn in *. by rewrite Hat.
Qed.


Lemma stringAt_stringMap (m : gmap string string) k :
  decode.stringAt k (json.stringMap m) = m !! k.
Proof.
  unfold decode.stringAt. rewrite lookupField_stringMap.
  by destruct (m !! k).
Qed.

Lemma lookupField_omitMap name (m : gmap string string) k :
  decode.stringAt k (decode.fieldsAt name (json.omitMap name m)) = m !! k.
Proof.
  unfold json.omitMap, decode.fieldsAt. destruct (decide (m = ∅)) as [->|].
  - done.
  - cbn. rewrite decide_True by done. apply stringAt_stringMap.
Qed.

(** Reading a document gives the annotation and the payload key found at
    their paths. *)
Lemma Unmarshal_annotation doc k :
  GetAnnotations (decode.Unmarshal doc) !! k
  = getPath ["metadata"; "annotations"; k] doc ≫= decode.stringItem.
Proof.
  destruct doc as [| | | | |fs]; try done.
  unfold GetAnnotations. cbn [decode.Unmarshal Meta decode.objectMeta Annotations].
  rewrite mapAt_lookup. unfold decode.fieldsAt, decode.stringAt. cbn [getPath].
  destruct (lookupField "metadata" fs) as [[| | | | |mfs]|]; try done.
  cbn [mbind option_bind].
  destruct (lookupField "annotations" mfs) as [[| | | | |afs]|]; try done.
  cbn. by destruct (lookupField k afs).
Qed.

Lemma Unmarshal_payload doc k :
  Data (decode.Unmarshal doc) !! k
  = getPath ["data"; k] doc ≫= decode.stringItem.
Proof.
  destruct doc as [| | | | |fs]; try done.
  cbn [decode.Unmarshal Data].
  rewrite mapAt_lookup. unfold decode.fieldsAt, decode.stringAt. cbn [getPath].
  destruct (lookupField "data" fs) as [[| | | | |dfs]|]; try done.
  cbn. by destruct (lookupField k dfs).
Qed.

Lemma Marshal_annotation o k :
  getPath ["metadata"; "annotations"; k] (json.Marshal o) ≫= decode.stringItem
  = GetAnnotations o !! k.
Proof.
  rewrite <- (lookupField_omitMap "annotations" (GetAnnotations o) k).
  unfold json.Marshal. cbn [getPath app lookupField].
  rewrite decide_True by done. cbn [mbind option_bind].
  unfold json.objectMeta, decode.stringAt, decode.fieldsAt.
  rewrite !lookupField_app.
  unfold json.omitStr, json.omitNum, json.omitSet, json.omitOwners,
    json.omitMap, GetAnnotations.
  repeat case_decide; repeat case_match; simplify_eq/=; try done;
    by destruct (lookupField k _).
Qed.

Lemma Marshal_payload o k :
  getPath ["data"; k] (json.Marshal o) ≫= decode.stringItem = Data o !! k.
Proof.
  rewrite <- (lookupField_omitMap "data" (Data o) k).
  unfold json.Marshal. cbn [getPath app lookupField].
  rewrite decide_False by done.
  unfold decode.stringAt, decode.fieldsAt. rewrite lookupField_app.
  unfold json.omitSpec, json.omitMap.
  repeat case_decide; repeat case_match; simplify_eq/=; try done;
    by destruct (lookupField k _).
Qed.

(** The merge patch of the reference server: an annotation and a payload
    key absent from the body are, in the object stored afterwards, what they
    were in the object stored before. *)
Lemma patch_frame (s : Store) obj cur body :
  s !! storeKey (keyOf obj) = Some cur →
  ∃ o,
    patch obj MergePatchType body s
    = (Replied o, <[storeKey (keyOf obj) := o]> s)
    ∧ (∀ k, absent ["metadata"; "annotations"; k] body = true →
            GetAnnotations o !! k = GetAnnotations cur !! k)
    ∧ (∀ k, absent ["data"; k] body = true → Data o !! k = Data cur !! k).
Proof.
  intros Hcur. unfold patch. rewrite Hcur. eexists. split; [reflexivity|].
  split; intros k Habs.
  - change (GetAnnotations (SetResourceVersion ?v ?o)) with (GetAnnotations o).
    by rewrite Unmarshal_annotation, MergePatch_frame, Marshal_annotation.
  - change (Data (SetResourceVersion ?v ?o)) with (Data o).
    by rewrite Unmarshal_payload, MergePatch_frame, Marshal_payload.
Qed.
End StoreFrame.

Section PatchClaim.
Import resource mergepatch.
Context {St : Type} `{Client St}.
Implicit Types (m current : Object) (ao : list ApplyOption) (w : World St).

(** C3, as the code has it.  On an object that exists and with options that
    all succeed, the patching applicator issues the read and then one merge
    patch whose body is the document of the snapshot as the options leave
    it: the document of the caller's desired object when no option touches
    its second argument.  A merge of that body changes no path absent from
    it, whatever document it is merged into; on the reference server,
    whatever is stored under the key by then, an annotation or a payload key
    that the snapshot lacks is after the patch what it was before. *)
Theorem patching_Apply_merge_patch m ao w current s1 current' desired' :
  client_Get (keyOf m) m (store w) = (Replied current, s1) →
  runOptions ao current m = (None, (current', desired')) →
  let body := json.Marshal desired' in
  let answer := client_Patch current' MergePatchType body s1 in
  APIPatchingApplicator_Apply (MetaObject m) ao w
  = (Returned (errors.Wrap (errOf answer.1) "cannot patch object",
               MetaObject (objAfter answer.1 current')),
     mkWorld answer.2
       (calls w ++ [CallGet (keyOf m) m;
                    CallPatch current' MergePatchType body]))
  ∧ (Forall keepsSecond ao → body = json.Marshal m)
  ∧ (∀ path stored,
       absent path body = true →
       getPath path (MergePatch stored body) = getPath path stored)
  ∧ (∀ (s : apiserver.Store) cur,
       s !! apiserver.storeKey (keyOf current') = Some cur →
       ∃ o,
         apiserver.patch current' MergePatchType body s
         = (Replied o, <[apiserver.storeKey (keyOf current') := o]> s)
         ∧ (∀ k, GetAnnotations desired' !! k = None →
                 GetAnnotations o !! k = GetAnnotations cur !! k)
         ∧ (∀ k, Data desired' !! k = None → Data o !! k = Data cur !! k)).
Proof.
  intros Hget Hopts body answer. split; [|split; [|split]].
  - apply (patching_Apply_existing m ao w current s1 current' desired');
      [done..|]. subst answer. by destruct (client_Patch _ _ _ _).
  - intros Hkeep. subst body.
    pose proof (runOptions_keepsSecond ao current m Hkeep) as Hsnd.
    rewrite Hopts in Hsnd. by rewrite <- Hsnd.
  - intros path stored. apply MergePatch_frame.
  - intros s cur Hcur.
    destruct (patch_frame s current' cur body Hcur) as (o & Hrun & Ha & Hd).
    exists o. split; [exact Hrun|]. split; intros k Hk.
    + by apply Ha, absent_annotation.
    + by apply Hd, absent_payload.
Qed.
End PatchClaim.

(** ** Aborts *)

Section Aborts.
Import resource managed.
Context {St : Type} `{Client St} `{Imports}.
Implicit Types (o mg : Object) (w : World St).

Lemma returns_ret {A} (a : A) w : returns (St := St) (ret a) w.
Proof. by eexists _, _. Qed.

Lemma returns_bind {A B} (c : M St A) (k : A → M St B) w :
  returns c w → (∀ a w', returns (k a) w') → returns (bind c k) w.
Proof.
  intros (a & w' & Hc) Hk. unfold returns.
  rewrite (run_bind_returned _ _ _ _ _ Hc). apply Hk.
Qed.

Lemma returns_issue c f w : returns (St := St) (issue c f) w.
Proof. unfold returns, issue. destruct (f (store w)). by eexists _, _. Qed.

Lemma returns_deref {A} (p : option A) w :
  is_Some p → returns (St := St) (deref p) w.
Proof. intros [a ->]. apply returns_ret. Qed.

Lemma returns_MustGetKind obj (ot : ObjectTyper) w :
  is_Some (ot obj) → returns (St := St) (MustGetKind obj ot) w.
Proof. intros [k Hk]. unfold MustGetKind. rewrite Hk. apply returns_ret. Qed.

Ltac returns_step :=
  first
    [ apply returns_ret
    | apply returns_issue
    | apply returns_bind; [|intros ? ?] ].

Lemma returns_patching_Apply obj ao w :
  returns (APIPatchingApplicator_Apply obj ao) w.
Proof.
  unfold APIPatchingApplicator_Apply.
  destruct (asMetaObject obj) as [m|]; [|apply returns_ret].
  apply returns_bind; [apply returns_issue|]. intros r w1.
  cbv zeta. repeat case_match; repeat returns_step.
Qed.

Lemma returns_updating_Apply obj ao w :
  returns (APIUpdatingApplicator_Apply obj ao) w.
Proof.
  unfold APIUpdatingApplicator_Apply.
  destruct (asMetaObject obj) as [m|]; [|apply returns_ret].
  apply returns_bind; [apply returns_issue|]. intros r w1.
  cbv zeta. repeat case_match; repeat returns_step.
Qed.

Lemma returns_PropagateConnection (t : ObjectTyper) o mg w :
  is_Some (t o) →
  returns (PropagateConnection (NewAPIManagedConnectionPropagator t) o mg) w.
Proof.
  intros Ho. unfold PropagateConnection.
  destruct (GetWriteConnectionSecretToReference mg) as [ref|];
    destruct (GetWriteConnectionSecretToReference o) as [oref|];
    rewrite ?bool_decide_eq_false_2, ?bool_decide_eq_true_2 by done;
    cbn [orb]; try apply returns_ret.
  apply returns_bind; [by apply returns_deref|]. intros ref' w1.
  apply returns_bind; [apply returns_issue|]. intros r w2.
  destruct (errOf r); [apply returns_ret|].
  case_match; [apply returns_ret|].
  apply returns_bind; [by apply returns_MustGetKind|]. intros kind w3.
  destruct (AllowPropagation _ _) as [from' to].
  apply returns_bind; [apply returns_updating_Apply|]. intros applied w4.
  destruct (applied.1); repeat returns_step.
Qed.

Lemma returns_PublishConnection (t : ObjectTyper) mg (c : ConnectionDetails) w :
  is_Some (t mg) →
  returns (PublishConnection (NewAPISecretPublisher t) mg c) w.
Proof.
  intros Hmg. unfold PublishConnection. case_match; [apply returns_ret|].
  apply returns_bind; [by apply returns_MustGetKind|]. intros kind w1.
  apply returns_bind; [apply returns_patching_Apply|]. intros applied w2.
  apply returns_ret.
Qed.

Lemma returns_AddFinalizer (a : APIFinalizer) mg w :
  returns (AddFinalizer a mg) w.
Proof. unfold AddFinalizer. case_match; repeat returns_step. Qed.

Lemma returns_RemoveFinalizer (a : APIFinalizer) mg w :
  returns (RemoveFinalizer a mg) w.
Proof. unfold RemoveFinalizer. repeat returns_step. Qed.

Lemma returns_Initialize mg w : returns (Initialize mg) w.
Proof. unfold Initialize. case_match; repeat returns_step. Qed.

(** Func values that are not nil are called like the options they are. *)
Lemma callOptions_not_nil (ao : list ApplyOption) (x y : Object) w :
  entry.callOptions (Some <$> ao) x y w = (Returned (runOptions ao x y), w).
Proof.
  revert x y. induction ao as [|fn ao IH]; intros x y; [done|].
  change (entry.callOptions (Some <$> fn :: ao) x y w)
    with (match fn x y with
          | (Some err, xy) => ret (Some err, xy)
          | (None, (x', y')) => entry.callOptions (Some <$> ao) x' y'
          end w).
  cbn [runOptions].
  destruct (fn x y) as [[err|] [x' y']]; [done|]. apply IH.
Qed.

Lemma returns_callOptions (ao : list (option ApplyOption)) :
  Forall is_Some ao →
  ∀ (x y : Object) w, returns (entry.callOptions ao x y) w.
Proof.
  induction 1 as [|fn ao [f ->] _ IH]; intros x y w.
  - apply returns_ret.
  - cbn. apply returns_bind; [apply returns_ret|]. intros f' w'.
    destruct (f' x y) as [[err|] [x' y']]; [apply returns_ret|apply IH].
Qed.

Lemma returns_entry_patching_Apply obj (ao : list (option ApplyOption)) w :
  Forall is_Some ao →
  obj ≠ entry.nilPointer →
  returns (entry.APIPatchingApplicator_Apply obj ao) w.
Proof.
  intros Hao Hobj. unfold entry.APIPatchingApplicator_Apply.
  destruct obj as [| |[m|description]]; [apply returns_ret|done| |apply returns_ret].
  apply returns_bind; [apply returns_issue|]. intros r w1. cbv zeta.
  destruct (kerrors.IsNotFound (errOf r)); [repeat returns_step|].
  destruct (errOf r); [apply returns_ret|].
  apply returns_bind; [by apply returns_callOptions|].
  intros [[err|] [x y]] w2; repeat returns_step.
Qed.

Lemma returns_entry_updating_Apply obj (ao : list (option ApplyOption)) w :
  Forall is_Some ao →
  obj ≠ entry.nilPointer →
  returns (entry.APIUpdatingApplicator_Apply obj ao) w.
Proof.
  intros Hao Hobj. unfold entry.APIUpdatingApplicator_Apply.
  destruct obj as [| |[m|description]]; [apply returns_ret|done| |apply returns_ret].
  apply returns_bind; [apply returns_issue|]. intros r w1. cbv zeta.
  destruct (kerrors.IsNotFound (errOf r)); [repeat returns_step|].
  destruct (errOf r); [apply returns_ret|].
  apply returns_bind; [by apply returns_callOptions|].
  intros [[err|] [x y]] w2; repeat returns_step.
Qed.

(** On arguments that are not nil the entry points are the operations
    themselves. *)
Lemma entry_not_nil (a : APIManagedConnectionPropagator)
    (p : APISecretPublisher) (f : APIFinalizer) o mg
    (c : ConnectionDetails) w :
  entry.PropagateConnection a (Some o) (Some mg) w = PropagateConnection a o mg w
  ∧ entry.PublishConnection p (Some mg) c w = PublishConnection p mg c w
  ∧ entry.AddFinalizer f (Some mg) w = AddFinalizer f mg w
  ∧ entry.RemoveFinalizer f (Some mg) w = RemoveFinalizer f mg w
  ∧ entry.Initialize (Some mg) w = Initialize mg w.
Proof.
  assert (Hderef : ∀ {A B} (x : A) (k : A → M St B) w',
            bind (deref (Some x)) k w' = k x w') by done.
  split; [|by rewrite ?Hderef].
  unfold entry.PropagateConnection. rewrite Hderef.
  destruct (bool_decide _) eqn:Hnone; [|by rewrite Hderef].
  apply bool_decide_eq_true_1 in Hnone.
  unfold PropagateConnection. rewrite Hnone.
  by rewrite bool_decide_eq_true_2.
Qed.

(** C4, as the code has it.  Every operation comes back to its caller with
    an error value when the arguments it uses are not nil (the managed
    resource, the owner, each option, the pointer behind the object applied)
    and the type resolver names a kind for the object whose kind is asked:
    the owner in [PropagateConnection], the managed resource in
    [PublishConnection].  [UnpublishConnection] comes back whatever it is
    given. *)
Theorem entry_points_return (t : ObjectTyper) (o mg : option Object)
    (o' mg' : Object) (obj : entry.runtime_arg)
    (ao : list (option ApplyOption)) (a : APIFinalizer)
    (c : ConnectionDetails) w :
  mg = Some mg' →
  o = Some o' →
  Forall is_Some ao →
  obj ≠ entry.nilPointer →
  is_Some (t o') →
  is_Some (t mg') →
  returns (entry.APIPatchingApplicator_Apply obj ao) w
  ∧ returns (entry.APIUpdatingApplicator_Apply obj ao) w
  ∧ returns (entry.PropagateConnection
               (NewAPIManagedConnectionPropagator t) o mg) w
  ∧ returns (entry.AddFinalizer a mg) w
  ∧ returns (entry.RemoveFinalizer a mg) w
  ∧ returns (entry.Initialize mg) w
  ∧ returns (entry.PublishConnection (NewAPISecretPublisher t) mg c) w
  ∧ ∀ mg0 : option Object,
      entry.UnpublishConnection (NewAPISecretPublisher t) mg0 c w
      = (Returned None, w).
Proof.
  intros -> -> Hao Hobj Ho Hmg.
  destruct (entry_not_nil (NewAPIManagedConnectionPropagator t)
              (NewAPISecretPublisher t) a o' mg' c w)
    as (Hpropagate & Hpublish & Hadd & Hremove & Hinit).
  split; [by apply returns_entry_patching_Apply|].
  split; [by apply returns_entry_updating_Apply|].
  unfold returns at 1 2 3 4 5.
  rewrite Hpropagate, Hpublish, Hadd, Hremove, Hinit.
  split; [by apply returns_PropagateConnection|].
  split; [apply returns_AddFinalizer|].
  split; [apply returns_RemoveFinalizer|].
  split; [apply returns_Initialize|].
  split; [by apply returns_PublishConnection|].
  done.
Qed.
End Aborts.

(** ** The code on the reference API server *)

Section ReferenceRuns.
Import resource managed scenario apiserver mergepatch.

Lemma update_keeps_finalizers : UpdateKeepsFinalizers Store.
Proof.
  intros obj s o' s' Hupdate. cbn in Hupdate. unfold update in Hupdate.
  destruct (s !! storeKey (keyOf obj)) as [cur|]; [|done].
  case_decide; [|done]. by injection Hupdate as <- _.
Qed.

(** The scenarios of the specification.  Publishing the details of [db-1]
    creates [creds] with that payload; publishing over a secret controlled by
    another UID is refused and the payload stays. *)
Example PublishConnection_creates :
  let run := PublishConnection (NewAPISecretPublisher knownTyper) db1 payload
               (start ∅) in
  run.1 = Returned None
  ∧ Data <$> (store run.2 !! ("infra", "creds")) = Some payload.
Proof. split; vm_compute; reflexivity. Qed.

Example PublishConnection_refuses_foreign_secret :
  let foreign := SetData {[ "user" := "z" ]} (creds "u2") in
  let run := PublishConnection (NewAPISecretPublisher knownTyper) db1 payload
               (start (storeOf [foreign])) in
  run.1 = Returned (Some (withMessage
                            (fundamental "existing secret is not controlled by UID")
                            managed.errCreateOrUpdateSecret))
  ∧ store run.2 = storeOf [foreign].
Proof. split; vm_compute; reflexivity. Qed.

(** Nothing to propagate, nothing requested: no call at all. *)
Example PropagateConnection_without_reference :
  let unwilling := object "team" "app" "c1" 2 [] None ∅ in
  PropagateConnection propagator unwilling db1 (start (storeOf [creds "u1"]))
  = (Returned None, start (storeOf [creds "u1"])).
Proof. reflexivity. Qed.

(** C1 at work: [creds] is controlled by [u2], not by [db-1]. *)
Lemma PropagateConnection_ownership_conflict_witness :
  ∃ w',
    PropagateConnection propagator app db1 (start (storeOf [creds "u2"]))
    = (Returned (errors.New errSecretConflict), w')
    ∧ calls w'
      = [CallGet {| nnNamespace := "infra"; nnName := "creds" |} emptySecret].
Proof.
  destruct (PropagateConnection_ownership_conflict propagator app db1
              (start (storeOf [creds "u2"])) credsRef appRef
              (creds "u2") (storeOf [creds "u2"]))
    as (w' & Hrun & _ & Hcalls & _).
  - reflexivity.
  - reflexivity.
  - vm_compute. reflexivity.
  - right. eexists. split; [reflexivity|]. vm_compute. discriminate.
  - exists w'. split; [exact Hrun|exact Hcalls].
Defined.


(** C6 at work: nothing is stored under the key. *)
Lemma Apply_not_found_creates_witness :
  APIPatchingApplicator_Apply (MetaObject (creds "u1")) [touch] (start ∅)
  = APIUpdatingApplicator_Apply (MetaObject (creds "u1")) [touch] (start ∅).
Proof.
  destruct (Apply_not_found_creates (creds "u1") [touch] (start ∅)
              notFound ∅ (Replied (SetResourceVersion 1 (creds "u1")))
              (storeOf [SetResourceVersion 1 (creds "u1")]))
    as (Hp & Hu & _).
  - reflexivity.
  - reflexivity.
  - vm_compute. reflexivity.
  - by rewrite Hp, Hu.
Defined.

(** C2 at work: the caller holds the stored version. *)
Lemma updating_Apply_sends_caller_object_witness :
  (APIUpdatingApplicator_Apply (MetaObject (creds "u1")) []
     (start (storeOf [creds "u1"]))).1
  = Returned (None, MetaObject (SetResourceVersion 6 (creds "u1"))).
Proof.
  destruct (updating_Apply_sends_caller_object (creds "u1") []
              (start (storeOf [creds "u1"])) (creds "u1")
              (storeOf [creds "u1"]) (creds "u1") (creds "u1")
              (Replied (SetResourceVersion 6 (creds "u1")))
              (storeOf [SetResourceVersion 6 (creds "u1")]))
    as [Hrun _].
  - vm_compute. reflexivity.
  - reflexivity.
  - vm_compute. reflexivity.
  - by rewrite Hrun.
Defined.

(** C2, the claim as stated, fails: the read returns version 5, the update
    that follows carries the caller's version 2, and the conflict comes
    back wrapped. *)
Lemma updating_Apply_stale_version_counterexample :
  let desired := SetResourceVersion 2 (creds "u1") in
  let w := start (storeOf [creds "u1"]) in
  let run := APIUpdatingApplicator_Apply (MetaObject desired) [] w in
  client_Get (keyOf desired) desired (store w)
  = (Replied (creds "u1"), store w)
  ∧ GetResourceVersion (creds "u1") = 5%N
  ∧ calls run.2 = [CallGet (keyOf desired) desired; CallUpdate desired]
  ∧ GetResourceVersion desired = 2%N
  ∧ run.1 = Returned (Some (withMessage conflict "cannot update object"),
                      MetaObject desired)
  ∧ withMessage conflict "cannot update object" ≠ conflict.
Proof. repeat split; try (vm_compute; reflexivity). discriminate. Qed.


(** C3 at work: no option, the body is the caller's document. *)
Lemma patching_Apply_merge_patch_witness :
  calls (APIPatchingApplicator_Apply (MetaObject (creds "u1")) []
           (start (storeOf [creds "u1"]))).2
  = [CallGet (keyOf (creds "u1")) (creds "u1");
     CallPatch (creds "u1") MergePatchType (json.Marshal (creds "u1"))].
Proof.
  destruct (patching_Apply_merge_patch (creds "u1") []
              (start (storeOf [creds "u1"])) (creds "u1")
              (storeOf [creds "u1"]) (creds "u1") (creds "u1"))
    as [Hrun _].
  - vm_compute. reflexivity.
  - reflexivity.
  - by rewrite Hrun.
Defined.

(** C3, the claim as stated, fails: an option that succeeds adjusts the
    snapshot, the body is no longer the document of the caller's desired
    object, and an annotation absent from that object is set in the stored
    one. *)
Lemma patching_Apply_option_counterexample :
  let desired := creds "u1" in
  let w := start (storeOf [creds "u1"]) in
  let run := APIPatchingApplicator_Apply (MetaObject desired) [touch] w in
  let touched := ["metadata"; "annotations"; "touched"] in
  (∃ body,
     calls run.2 = [CallGet (keyOf desired) desired;
                    CallPatch (creds "u1") MergePatchType body]
     ∧ getPath touched body = Some (JStr "yes")
     ∧ getPath touched (json.Marshal desired) = None
     ∧ body ≠ json.Marshal desired)
  ∧ GetAnnotations desired !! "touched" = None
  ∧ (store w !! ("infra", "creds")) ≫= (λ o, GetAnnotations o !! "touched")
    = None
  ∧ (store run.2 !! ("infra", "creds"))
      ≫= (λ o, GetAnnotations o !! "touched")
    = Some "yes".
Proof.
  intros desired w run touched. split; [|split; [|split]].
  - eexists. split; [vm_compute; reflexivity|].
    split; [vm_compute; reflexivity|]. split; [vm_compute; reflexivity|].
    intros Heq. apply (f_equal (getPath touched)) in Heq.
    vm_compute in Heq. discriminate.
  - vm_compute. reflexivity.
  - vm_compute. reflexivity.
  - vm_compute. reflexivity.
Qed.

(** C4 at work: nothing is nil and the resolver knows every object. *)
Lemma entry_points_return_witness :
  returns (entry.PropagateConnection propagator (Some app) (Some db1))
    (start (storeOf [creds "u1"]))
  ∧ returns (entry.PublishConnection (NewAPISecretPublisher knownTyper)
               (Some db1) payload)
      (start (storeOf [creds "u1"]))
  ∧ returns (entry.APIUpdatingApplicator_Apply
               (entry.pointerTo (MetaObject (creds "u1"))) [Some touch])
      (start (storeOf [creds "u1"])).
Proof.
  destruct (entry_points_return knownTyper (Some app) (Some db1) app db1
              (entry.pointerTo (MetaObject (creds "u1"))) [Some touch]
              finalizerOf payload (start (storeOf [creds "u1"])))
    as (_ & Hupdating & Hpropagate & _ & _ & _ & Hpublish & _).
  - reflexivity.
  - reflexivity.
  - repeat constructor. by eexists.
  - discriminate.
  - by eexists.
  - by eexists.
  - split; [exact Hpropagate|]. split; [exact Hpublish|exact Hupdating].
Defined.

(** C4, the claim as stated, fails: a nil managed resource aborts
    [PublishConnection] and [PropagateConnection] at their first line, a nil
    owner aborts [PropagateConnection] once the managed resource has a
    reference, and a nil option aborts either applicator when its turn comes
    on an object that exists.  The resolver knows every object here. *)
Lemma nil_argument_aborts_counterexample :
  let nilDereference :=
    "invalid memory address or nil pointer dereference" in
  (entry.PublishConnection (NewAPISecretPublisher knownTyper) None payload
     (start (storeOf [creds "u1"]))).1
  = Panicked nilDereference
  ∧ (entry.PropagateConnection propagator (Some app) None
       (start (storeOf [creds "u1"]))).1
    = Panicked nilDereference
  ∧ (entry.PropagateConnection propagator None (Some db1)
       (start (storeOf [creds "u1"]))).1
    = Panicked nilDereference
  ∧ (entry.APIPatchingApplicator_Apply
       (entry.pointerTo (MetaObject (creds "u1"))) [None]
       (start (storeOf [creds "u1"]))).1
    = Panicked nilDereference
  ∧ (entry.APIUpdatingApplicator_Apply
       (entry.pointerTo (MetaObject (creds "u1"))) [None]
       (start (storeOf [creds "u1"]))).1
    = Panicked nilDereference
  ∧ ¬ returns (entry.PublishConnection (NewAPISecretPublisher knownTyper)
                 None payload)
        (start (storeOf [creds "u1"])).
Proof.
  repeat split; try (vm_compute; reflexivity).
  intros (r & w' & Hrun). apply (f_equal fst) in Hrun.
  vm_compute in Hrun. discriminate.
Qed.

(** C7 at work: a resource that holds the token, and one that does not. *)
Lemma AddFinalizer_idempotent_witness :
  AddFinalizer finalizerOf held (start (storeOf [db1]))
  = (Returned (None, held), start (storeOf [db1]))
  ∧ ∃ err mg1 w1,
      AddFinalizer finalizerOf db1 (start (storeOf [db1]))
      = (Returned (err, mg1), w1)
      ∧ "finalizer.example.org" ∈ GetFinalizers mg1
      ∧ AddFinalizer finalizerOf mg1 w1 = (Returned (None, mg1), w1).
Proof.
  split.
  - apply (AddFinalizer_idempotent finalizerOf held (start (storeOf [db1]))).
    vm_compute. reflexivity.
  - apply (AddFinalizer_idempotent finalizerOf db1 (start (storeOf [db1]))).
    exact update_keeps_finalizers.
Defined.

(** C8 at work: the resource is gone from the store. *)
Lemma RemoveFinalizer_swallows_not_found_witness :
  (RemoveFinalizer finalizerOf db1 (start ∅)).1 = Returned (None, db1).
Proof.
  destruct (RemoveFinalizer_swallows_not_found finalizerOf db1 (start ∅))
    as (Hrun & _ & Hsame).
  rewrite Hrun. rewrite Hsame by (vm_compute; set_solver).
  reflexivity.
Defined.

(** C9 at work: [db-1] has no external name yet. *)
Lemma Initialize_external_name_witness :
  meta.GetExternalName (meta.SetExternalName db1 (GetName db1)) = "db-1"
  ∧ Initialize (meta.SetExternalName db1 "kept") (start (storeOf [db1]))
    = (Returned (None, meta.SetExternalName db1 "kept"),
       start (storeOf [db1])).
Proof.
  split.
  - destruct (Initialize_external_name db1 (start (storeOf [db1])))
      as [_ Hempty].
    destruct Hempty as [Hname _]; [reflexivity|]. exact Hname.
  - apply (Initialize_external_name (meta.SetExternalName db1 "kept")
             (start (storeOf [db1]))).
    vm_compute. discriminate.
Defined.
End ReferenceRuns.

(** * Further properties of the code *)

(** ** The applicators, on their other paths *)

Section ApplicatorPaths.
Import resource.
Context {St : Type} `{Client St}.
Implicit Types (m current : Object) (ao : list ApplyOption) (w : World St).

Lemma patching_Apply_vetoed m ao w current s1 err current' desired' :
  client_Get (keyOf m) m (store w) = (Replied current, s1) →
  runOptions ao current m = (Some err, (current', desired')) →
  APIPatchingApplicator_Apply (MetaObject m) ao w
  = (Returned (Some err, MetaObject current'),
     mkWorld s1 (calls w ++ [CallGet (keyOf m) m])).
Proof.
  intros Hget Hopts.
  unfold APIPatchingApplicator_Apply. cbn [asMetaObject].
  run_call run_Get Hget. cbn [kerrors.IsNotFound].
  unfold DeepCopyObject. by rewrite Hopts.
Qed.

Lemma patching_Apply_read_failed m ao w e s1 :
  client_Get (keyOf m) m (store w) = (Failed e, s1) →
  kerrors.IsNotFound (Some e) = false →
  APIPatchingApplicator_Apply (MetaObject m) ao w
  = (Returned (Some (withMessage e "cannot get object"), MetaObject m),
     mkWorld s1 (calls w ++ [CallGet (keyOf m) m])).
Proof.
  intros Hget Hnf.
  unfold APIPatchingApplicator_Apply. cbn [asMetaObject].
  run_call run_Get Hget. by rewrite Hnf.
Qed.

Lemma updating_Apply_read_failed m ao w e s1 :
  client_Get (keyOf m) m (store w) = (Failed e, s1) →
  kerrors.IsNotFound (Some e) = false →
  APIUpdatingApplicator_Apply (MetaObject m) ao w
  = (Returned (Some (withMessage e "cannot get object"), MetaObject m),
     mkWorld s1 (calls w ++ [CallGet (keyOf m) m])).
Proof.
  intros Hget Hnf.
  unfold APIUpdatingApplicator_Apply. cbn [asMetaObject].
  run_call run_Get Hget. by rewrite Hnf.
Qed.

(** X1.  When the read fails with anything but not-found, both applicators
    return that error wrapped with "cannot get object"; the read is the only
    call, no option runs and the caller's object is as it was. *)
Theorem Apply_read_failure m ao w e s1 :
  client_Get (keyOf m) m (store w) = (Failed e, s1) →
  kerrors.IsNotFound (Some e) = false →
  let failed :=
    (Returned (Some (withMessage e "cannot get object"), MetaObject m),
     mkWorld s1 (calls w ++ [CallGet (keyOf m) m])) in
  APIPatchingApplicator_Apply (MetaObject m) ao w = failed
  ∧ APIUpdatingApplicator_Apply (MetaObject m) ao w = failed.
Proof.
  intros Hget Hnf failed. split.
  - by apply patching_Apply_read_failed.
  - by apply updating_Apply_read_failed.
Qed.

(** X2.  When an option vetoes, both applicators return the option's error
    as it is, not wrapped, and write nothing.  They differ in what they leave
    behind the caller's pointer: the patching applicator has read the stored
    object into it, so the caller's desired state is gone; the updating
    applicator leaves the caller's object as the options left it. *)
Theorem Apply_veto m ao w current s1 err current' desired' :
  client_Get (keyOf m) m (store w) = (Replied current, s1) →
  runOptions ao current m = (Some err, (current', desired')) →
  APIPatchingApplicator_Apply (MetaObject m) ao w
  = (Returned (Some err, MetaObject current'),
     mkWorld s1 (calls w ++ [CallGet (keyOf m) m]))
  ∧ APIUpdatingApplicator_Apply (MetaObject m) ao w
    = (Returned (Some err, MetaObject desired'),
       mkWorld s1 (calls w ++ [CallGet (keyOf m) m])).
Proof.
  intros Hget Hopts. split.
  - by apply (patching_Apply_vetoed m ao w current s1 err current' desired').
  - by apply (updating_Apply_vetoed m ao w current s1 err current' desired').
Qed.

Lemma runOptions_append ao1 ao2 (x y : Object) :
  runOptions (ao1 ++ ao2) x y
  = match runOptions ao1 x y with
    | (Some err, xy) => (Some err, xy)
    | (None, (x', y')) => runOptions ao2 x' y'
    end.
Proof.
  revert x y. induction ao1 as [|fn ao1 IH]; intros x y; [done|].
  cbn. destruct (fn x y) as [[err|] [x' y']]; [done|]. apply IH.
Qed.

(** X3.  The options run in order, each on the pair as its predecessors left
    it: running a list that is the concatenation of two is running the first
    and, if it passes, the second on its outcome.  The first veto ends the
    loop: whatever follows the vetoing option does not run. *)
Theorem runOptions_in_order ao1 ao2 (x y : Object) :
  runOptions (ao1 ++ ao2) x y
  = match runOptions ao1 x y with
    | (Some err, xy) => (Some err, xy)
    | (None, (x', y')) => runOptions ao2 x' y'
    end
  ∧ ∀ fn x' y' err xy,
      runOptions ao1 x y = (None, (x', y')) →
      fn x' y' = (Some err, xy) →
      runOptions (ao1 ++ fn :: ao2) x y = (Some err, xy).
Proof.
  split; [apply runOptions_append|].
  intros fn x' y' err xy Hfirst Hveto.
  rewrite runOptions_append, Hfirst. cbn. by rewrite Hveto.
Qed.

(** The verdict of a run of options that fails is the verdict of one
    option of the list. *)
Lemma runOptions_veto_from ao (x y : Object) err xy :
  runOptions ao x y = (Some err, xy) →
  ∃ fn x' y', fn ∈ ao ∧ fn x' y' = (Some err, xy).
Proof.
  revert x y. induction ao as [|fn ao IH]; intros x y Hrun; [done|].
  cbn in Hrun. destruct (fn x y) as [[err'|] [x' y']] eqn:Hfn.
  - injection Hrun as -> <-. exists fn, x, y. split; [left|done].
  - destruct (IH _ _ Hrun) as (fn' & x'' & y'' & Hin & Hfn').
    exists fn', x'', y''. split; [by right|done].
Qed.

Lemma patching_Apply_cases obj ao w :
  ∃ res obj' w' issued,
    APIPatchingApplicator_Apply obj ao w = (Returned (res, obj'), w')
    ∧ calls w' = calls w ++ issued
    ∧ readThenWrite issued
    ∧ Forall (λ c, isUpdate c = false) issued
    ∧ (res = None → ∃ c, last issued = Some c ∧ isWrite c = true)
    ∧ (∀ e, res = Some e →
         e = fundamental "cannot access object metadata"
         ∨ wrappedWith ["cannot create object"; "cannot get object";
                        "cannot patch object"] e
         ∨ ∃ fn x y xy, fn ∈ ao ∧ fn x y = (Some e, xy)).
Proof.
  destruct obj as [m|description].
  2:{ eexists _, _, w, []. rewrite app_nil_r.
      split; [reflexivity|]. split; [done|]. split; [by left|].
      split; [constructor|]. split; [done|].
      intros e [= <-]. by left. }
  destruct (client_Get (keyOf m) m (store w)) as [[e|current] s1] eqn:Hget.
  - destruct (kerrors.IsNotFound (Some e)) eqn:Hnf.
    + destruct (client_Create m s1) as [c s2] eqn:Hcreate.
      rewrite (patching_Apply_not_found m ao w e s1 c s2) by done.
      eexists _, _, _, [CallGet (keyOf m) m; CallCreate m].
      split; [reflexivity|]. split; [done|].
      split; [right; eexists _, _; right; by eexists|].
      split; [by repeat constructor|]. split; [by eexists|].
      intros e' He'. right; left. destruct c as [ce|]; [|done].
      injection He' as <-. eexists _, _. split; [done|]. set_solver.
    + rewrite (patching_Apply_read_failed m ao w e s1) by done.
      eexists _, _, _, [CallGet (keyOf m) m].
      split; [reflexivity|]. split; [done|].
      split; [right; eexists _, _; by left|].
      split; [by repeat constructor|]. split; [done|].
      intros e' [= <-]. right; left. eexists _, _. split; [done|]. set_solver.
  - destruct (runOptions ao current m) as [[err|] [c' d']] eqn:Hopts.
    + rewrite (patching_Apply_vetoed m ao w current s1 err c' d') by done.
      eexists _, _, _, [CallGet (keyOf m) m].
      split; [reflexivity|]. split; [done|].
      split; [right; eexists _, _; by left|].
      split; [by repeat constructor|]. split; [done|].
      intros e' [= <-]. right; right.
      destruct (runOptions_veto_from _ _ _ _ _ Hopts) as (fn & x & y & ? & ?).
      by exists fn, x, y, (c', d').
    + destruct (client_Patch c' MergePatchType (json.Marshal d') s1)
        as [p s2] eqn:Hpatch.
      rewrite (patching_Apply_existing m ao w current s1 c' d' p s2) by done.
      eexists _, _, _, [CallGet (keyOf m) m; CallPatch c' _ _].
      split; [reflexivity|]. split; [done|].
      split; [right; eexists _, _; right; by eexists|].
      split; [by repeat constructor|]. split; [by eexists|].
      intros e' He'. right; left. destruct p as [pe|]; [|done].
      injection He' as <-. eexists _, _. split; [done|]. set_solver.
Qed.

Lemma updating_Apply_cases obj ao w :
  ∃ res obj' w' issued,
    APIUpdatingApplicator_Apply obj ao w = (Returned (res, obj'), w')
    ∧ calls w' = calls w ++ issued
    ∧ readThenWrite issued
    ∧ Forall (λ c, isPatch c = false) issued
    ∧ (res = None → ∃ c, last issued = Some c ∧ isWrite c = true)
    ∧ (∀ e, res = Some e →
         e = fundamental "cannot access object metadata"
         ∨ wrappedWith ["cannot create object"; "cannot get object";
                        "cannot update object"] e
         ∨ ∃ fn x y xy, fn ∈ ao ∧ fn x y = (Some e, xy)).
Proof.
  destruct obj as [m|description].
  2:{ eexists _, _, w, []. rewrite app_nil_r.
      split; [reflexivity|]. split; [done|]. split; [by left|].
      split; [constructor|]. split; [done|].
      intros e [= <-]. by left. }
  destruct (client_Get (keyOf m) m (store w)) as [[e|current] s1] eqn:Hget.
  - destruct (kerrors.IsNotFound (Some e)) eqn:Hnf.
    + destruct (client_Create m s1) as [c s2] eqn:Hcreate.
      rewrite (updating_Apply_not_found m ao w e s1 c s2) by done.
      eexists _, _, _, [CallGet (keyOf m) m; CallCreate m].
      split; [reflexivity|]. split; [done|].
      split; [right; eexists _, _; right; by eexists|].
      split; [by repeat constructor|]. split; [by eexists|].
      intros e' He'. right; left. destruct c as [ce|]; [|done].
      injection He' as <-. eexists _, _. split; [done|]. set_solver.
    + rewrite (updating_Apply_read_failed m ao w e s1) by done.
      eexists _, _, _, [CallGet (keyOf m) m].
      split; [reflexivity|]. split; [done|].
      split; [right; eexists _, _; by left|].
      split; [by repeat constructor|]. split; [done|].
      intros e' [= <-]. right; left. eexists _, _. split; [done|]. set_solver.
  - destruct (runOptions ao current m) as [[err|] [c' d']] eqn:Hopts.
    + rewrite (updating_Apply_vetoed m ao w current s1 err c' d') by done.
      eexists _, _, _, [CallGet (keyOf m) m].
      split; [reflexivity|]. split; [done|].
      split; [right; eexists _, _; by left|].
      split; [by repeat constructor|]. split; [done|].
      intros e' [= <-]. right; right.
      destruct (runOptions_veto_from _ _ _ _ _ Hopts) as (fn & x & y & ? & ?).
      by exists fn, x, y, (c', d').
    + destruct (client_Update d' s1) as [u s2] eqn:Hupdate.
      rewrite (updating_Apply_existing m ao w current s1 c' d' u s2) by done.
      eexists _, _, _, [CallGet (keyOf m) m; CallUpdate d'].
      split; [reflexivity|]. split; [done|].
      split; [right; eexists _, _; right; by eexists|].
      split; [by repeat constructor|]. split; [by eexists|].
      intros e' He'. right; left. destruct u as [ue|]; [|done].
      injection He' as <-. eexists _, _. split; [done|]. set_solver.
Qed.

(** X4.  Whatever the object, the options and the client, an applicator
    returns, and it has issued nothing (the object has no metadata), or the
    read alone, or the read followed by one write.  The patching applicator
    never issues an update and the updating applicator never issues a patch.
    Either returns nil only when its last call is a write. *)
Theorem Apply_call_discipline obj ao w :
  (∃ res obj' w' issued,
     APIPatchingApplicator_Apply obj ao w = (Returned (res, obj'), w')
     ∧ calls w' = calls w ++ issued
     ∧ readThenWrite issued
     ∧ (asMetaObject obj = None → issued = [])
     ∧ Forall (λ c, isUpdate c = false) issued
     ∧ (res = None → ∃ c, last issued = Some c ∧ isWrite c = true))
  ∧ (∃ res obj' w' issued,
       APIUpdatingApplicator_Apply obj ao w = (Returned (res, obj'), w')
       ∧ calls w' = calls w ++ issued
       ∧ readThenWrite issued
       ∧ (asMetaObject obj = None → issued = [])
       ∧ Forall (λ c, isPatch c = false) issued
       ∧ (res = None → ∃ c, last issued = Some c ∧ isWrite c = true)).
Proof.
  assert (Hopaque : ∀ (apply : Applicator) res obj' w' issued,
            apply obj ao w = (Returned (res, obj'), w') →
            calls w' = calls w ++ issued →
            (asMetaObject obj = None →
             apply obj ao w
             = (Returned (errors.New "cannot access object metadata", obj), w)) →
            asMetaObject obj = None → issued = []).
  { intros apply res obj' w' issued Hrun Hcalls Hshort Hnone.
    rewrite (Hshort Hnone) in Hrun. injection Hrun as _ _ <-.
    apply (f_equal length) in Hcalls. rewrite length_app in Hcalls.
    destruct issued; [done|]. cbn in Hcalls. lia. }
  split.
  - destruct (patching_Apply_cases obj ao w)
      as (res & obj' & w' & issued & Hrun & Hcalls & Hshape & Hnever & Hnil & _).
    exists res, obj', w', issued. repeat split; try done.
    apply (Hopaque APIPatchingApplicator_Apply res obj' w'); [done..|].
    intros Hnone. unfold APIPatchingApplicator_Apply. by rewrite Hnone.
  - destruct (updating_Apply_cases obj ao w)
      as (res & obj' & w' & issued & Hrun & Hcalls & Hshape & Hnever & Hnil & _).
    exists res, obj', w', issued. repeat split; try done.
    apply (Hopaque APIUpdatingApplicator_Apply res obj' w'); [done..|].
    intros Hnone. unfold APIUpdatingApplicator_Apply. by rewrite Hnone.
Qed.

(** X5.  Every error an applicator returns is one of: the missing-metadata
    error; an error of the client wrapped with the step that failed (get,
    create, and patch or update); or the verdict of one of the options, as
    that option returned it. *)
Theorem Apply_errors_described obj ao w e obj' w' :
  (APIPatchingApplicator_Apply obj ao w = (Returned (Some e, obj'), w') →
   e = fundamental "cannot access object metadata"
   ∨ wrappedWith ["cannot create object"; "cannot get object";
                  "cannot patch object"] e
   ∨ ∃ fn x y xy, fn ∈ ao ∧ fn x y = (Some e, xy))
  ∧ (APIUpdatingApplicator_Apply obj ao w = (Returned (Some e, obj'), w') →
     e = fundamental "cannot access object metadata"
     ∨ wrappedWith ["cannot create object"; "cannot get object";
                    "cannot update object"] e
     ∨ ∃ fn x y xy, fn ∈ ao ∧ fn x y = (Some e, xy)).
Proof.
  split; intros Hrun.
  - destruct (patching_Apply_cases obj ao w)
      as (res & ? & ? & ? & Hrun' & _ & _ & _ & _ & Herr).
    rewrite Hrun in Hrun'. injection Hrun' as <- _ _. by apply Herr.
  - destruct (updating_Apply_cases obj ao w)
      as (res & ? & ? & ? & Hrun' & _ & _ & _ & _ & Herr).
    rewrite Hrun in Hrun'. injection Hrun' as <- _ _. by apply Herr.
Qed.
End ApplicatorPaths.

(** ** The connection propagator, on its other paths *)

Section PropagatorPaths.
Import resource.
Context {St : Type} `{Client St} `{Imports}.
Implicit Types (o mg from m : Object) (w : World St).

Lemma PropagateConnection_short_circuit a o mg w :
  GetWriteConnectionSecretToReference mg = None
  ∨ GetWriteConnectionSecretToReference o = None →
  PropagateConnection a o mg w = (Returned None, w).
Proof.
  intros Hnone. unfold PropagateConnection.
  destruct Hnone as [-> | ->].
  - reflexivity.
  - by destruct (GetWriteConnectionSecretToReference mg).
Qed.

(** X6.  When the managed resource or the owner has no secret reference,
    [PropagateConnection] returns nil and issues no call at all, whichever
    of the two is missing and whatever the propagator: neither the client
    nor the type resolver is consulted. *)
Theorem PropagateConnection_no_reference a o mg w :
  GetWriteConnectionSecretToReference mg = None
  ∨ GetWriteConnectionSecretToReference o = None →
  PropagateConnection a o mg w = (Returned None, w)
  ∧ calls (PropagateConnection a o mg w).2 = calls w.
Proof.
  intros Hnone. by rewrite PropagateConnection_short_circuit.
Qed.

Lemma PropagateConnection_read_failed a o mg w ref oref e s1 :
  GetWriteConnectionSecretToReference mg = Some ref →
  GetWriteConnectionSecretToReference o = Some oref →
  client_Get {| nnNamespace := refNamespace ref; nnName := refName ref |}
    emptySecret (store w) = (Failed e, s1) →
  PropagateConnection a o mg w
  = (Returned (Some (withMessage e errGetSecret)),
     mkWorld s1
       (calls w ++ [CallGet {| nnNamespace := refNamespace ref;
                               nnName := refName ref |} emptySecret])).
Proof.
  intros Hmg Ho Hget. unfold PropagateConnection.
  rewrite Hmg, Ho. cbn [bool_decide decide_rel orb].
  rewrite !bool_decide_eq_false_2 by done. cbn [orb deref].
  unfold bind at 1. rewrite run_ret.
  by run_call run_Get Hget.
Qed.

(** X7.  When the read of the source secret fails, with not-found as with
    any other error, [PropagateConnection] returns the error wrapped with
    [errGetSecret]; the read is the only call issued, and the type resolver
    is not consulted. *)
Theorem PropagateConnection_read_failure a o mg w ref oref e s1 :
  GetWriteConnectionSecretToReference mg = Some ref →
  GetWriteConnectionSecretToReference o = Some oref →
  client_Get {| nnNamespace := refNamespace ref; nnName := refName ref |}
    emptySecret (store w) = (Failed e, s1) →
  ∃ w',
    PropagateConnection a o mg w
    = (Returned (Some (withMessage e errGetSecret)), w')
    ∧ store w' = s1
    ∧ calls w'
      = calls w ++ [CallGet {| nnNamespace := refNamespace ref;
                               nnName := refName ref |} emptySecret].
Proof.
  intros Hmg Ho Hget. eexists. split; [|split].
  - by apply (PropagateConnection_read_failed a o mg w ref oref e s1).
  - reflexivity.
  - reflexivity.
Qed.

(** X8.  Whatever the propagator's applicator, an error returned by
    [PropagateConnection] is the ownership-conflict error or a cause wrapped
    with one of the three messages of the failing step: reading the source,
    applying the destination, updating the source. *)
Theorem PropagateConnection_errors_described a o mg w e w' :
  PropagateConnection a o mg w = (Returned (Some e), w') →
  e = fundamental errSecretConflict
  ∨ wrappedWith [errGetSecret; errCreateOrUpdateSecret; errUpdateSecret] e.
Proof.
  intros Hrun. unfold PropagateConnection in Hrun.
  destruct (bool_decide _ || bool_decide _); [done|].
  unfold bind at 1 in Hrun.
  destruct (deref _ w) as [[ref|?] w0]; [|done].
  unfold bind at 1 in Hrun.
  destruct (Get _ _ w0) as [[r|?] w1]; [|done].
  destruct r as [ge|from]; cbn [errOf objAfter errors.Wrap] in Hrun.
  { injection Hrun as <- _. right. eexists _, _. split; [done|]. set_solver. }
  destruct (match metav1.GetControllerOf from with
            | Some c => bool_decide (orUID c ≠ GetUID mg)
            | None => true
            end).
  { injection Hrun as <- _. by left. }
  unfold bind at 1 in Hrun.
  destruct (MustGetKind _ _ w1) as [[kind|?] w2]; [|done].
  destruct (AllowPropagation _ _) as [from' to].
  unfold bind at 1 in Hrun.
  destruct (client_Apply a _ _ w2) as [[[applied obj']|?] w3]; [|done].
  cbn [fst] in Hrun. destruct applied as [ae|].
  { injection Hrun as <- _. right. eexists _, _. split; [done|]. set_solver. }
  unfold bind at 1 in Hrun.
  destruct (Update _ w3) as [[u|?] w4]; [|done].
  destruct u as [ue|]; [|done].
  injection Hrun as <- _. right. eexists _, _. split; [done|]. set_solver.
Qed.

Lemma updating_Apply_nil m ao w obj' w' :
  APIUpdatingApplicator_Apply (MetaObject m) ao w = (Returned (None, obj'), w') →
  ∃ x s1 ans,
    calls w' = calls w ++ [CallGet (keyOf m) m; x]
    ∧ obj' = MetaObject ans
    ∧ ((∃ e, client_Get (keyOf m) m (store w) = (Failed e, s1)
             ∧ kerrors.IsNotFound (Some e) = true
             ∧ x = CallCreate m
             ∧ client_Create m s1 = (Replied ans, store w'))
       ∨ (∃ cur cur' d,
             client_Get (keyOf m) m (store w) = (Replied cur, s1)
             ∧ runOptions ao cur m = (None, (cur', d))
             ∧ x = CallUpdate d
             ∧ client_Update d s1 = (Replied ans, store w'))).
Proof.
  intros Hrun.
  destruct (client_Get (keyOf m) m (store w)) as [[e|current] s1] eqn:Hget.
  - destruct (kerrors.IsNotFound (Some e)) eqn:Hnf.
    + destruct (client_Create m s1) as [c s2] eqn:Hcreate.
      rewrite (updating_Apply_not_found m ao w e s1 c s2) in Hrun by done.
      destruct c as [ce|ans]; [done|]. injection Hrun as <- <-.
      exists (CallCreate m), s1, ans. split; [done|]. split; [done|].
      left. by exists e.
    + by rewrite (updating_Apply_read_failed m ao w e s1) in Hrun.
  - destruct (runOptions ao current m) as [[err|] [c' d']] eqn:Hopts.
    + by rewrite (updating_Apply_vetoed m ao w current s1 err c' d') in Hrun.
    + destruct (client_Update d' s1) as [u s2] eqn:Hupdate.
      rewrite (updating_Apply_existing m ao w current s1 c' d' u s2)
        in Hrun by done.
      destruct u as [ue|ans]; [done|]. injection Hrun as <- <-.
      exists (CallUpdate d'), s1, ans. split; [done|]. split; [done|].
      right. by exists current, c', d'.
Qed.

(** X9.  For the propagator built by [NewAPIManagedConnectionPropagator],
    with both references configured and the owner's kind named by the
    resolver, a nil result means the whole sequence ran on the secret that
    the client returned: that secret is controlled by the managed resource;
    the destination built from it was read and then either created as built
    (it was not found) or updated as the ownership option left it (it was
    found and the option passed), and the client accepted that write; the
    last call is the update of the marked source secret, which the client
    accepted too.  The four calls are all there is. *)
Theorem PropagateConnection_nil_means_done
    (t : ObjectTyper) o mg w w' ref oref kind :
  GetWriteConnectionSecretToReference mg = Some ref →
  GetWriteConnectionSecretToReference o = Some oref →
  t o = Some kind →
  PropagateConnection (NewAPIManagedConnectionPropagator t) o mg w
  = (Returned None, w') →
  ∃ from s1 c,
    client_Get {| nnNamespace := refNamespace ref; nnName := refName ref |}
      emptySecret (store w) = (Replied from, s1)
    ∧ metav1.GetControllerOf from = Some c
    ∧ orUID c = GetUID mg
    ∧ let marked :=
        AllowPropagation from
          (SetData (Data from) (LocalConnectionSecretFor o kind)) in
      ∃ x s2 s3 written updated,
        calls w'
        = calls w
          ++ [CallGet {| nnNamespace := refNamespace ref;
                         nnName := refName ref |} emptySecret;
              CallGet (keyOf marked.2) marked.2;
              x;
              CallUpdate marked.1]
        ∧ ((∃ e,
              client_Get (keyOf marked.2) marked.2 s1 = (Failed e, s2)
              ∧ kerrors.IsNotFound (Some e) = true
              ∧ x = CallCreate marked.2
              ∧ client_Create marked.2 s2 = (Replied written, s3))
           ∨ (∃ cur cur' desired,
                client_Get (keyOf marked.2) marked.2 s1 = (Replied cur, s2)
                ∧ ConnectionSecretMustBeControllableBy (GetUID o) cur marked.2
                  = (None, (cur', desired))
                ∧ x = CallUpdate desired
                ∧ client_Update desired s2 = (Replied written, s3)))
        ∧ client_Update marked.1 s3 = (Replied updated, store w').
Proof.
  intros Hmg Ho Hkind Hrun.
  destruct (client_Get {| nnNamespace := refNamespace ref;
                          nnName := refName ref |} emptySecret (store w))
    as [[e|from] s1] eqn:Hget.
  { by rewrite (PropagateConnection_read_failed _ o mg w ref oref e s1)
      in Hrun. }
  rewrite (PropagateConnection_after_read _ o mg w ref oref from s1)
    in Hrun by done.
  destruct (metav1.GetControllerOf from) as [c|] eqn:Hctl; [|done].
  destruct (bool_decide (orUID c ≠ GetUID mg)) eqn:Huid; [done|].
  apply bool_decide_eq_false_1 in Huid. apply dec_stable in Huid.
  cbn [typer NewAPIManagedConnectionPropagator client_Apply] in Hrun.
  unfold MustGetKind in Hrun. rewrite Hkind in Hrun.
  unfold bind at 1 in Hrun. rewrite run_ret in Hrun.
  exists from, s1, c. split; [done|]. split; [done|]. split; [done|].
  destruct (AllowPropagation from _) as [from' to] eqn:Hmarked.
  set (w1 := mkWorld s1 _) in Hrun.
  destruct (updating_Apply_cases (MetaObject to)
              [ConnectionSecretMustBeControllableBy (GetUID o)] w1)
    as (res & obj' & w2 & issued & Happly & _).
  rewrite (run_bind_returned _ _ _ _ _ Happly) in Hrun. cbn [fst] in Hrun.
  destruct res as [ae|]; [done|].
  destruct (updating_Apply_nil _ _ _ _ _ Happly)
    as (x & s2 & written & Hcalls & _ & Hwrite).
  destruct (client_Update from' (store w2)) as [u s3] eqn:Hupdate.
  rewrite (run_bind_returned _ _ _ _ _ (run_Update _ _ _ _ Hupdate)) in Hrun.
  destruct u as [ue|updated]; [done|]. injection Hrun as <-.
  exists x, s2, (store w2), written, updated. cbn [fst snd store calls].
  split; [|split; [|done]].
  - rewrite Hcalls. subst w1. cbn [calls]. by rewrite <- !app_assoc.
  - subst w1. cbn [store] in Hwrite.
    destruct Hwrite as [(e & ? & ? & ? & ?) | (cur & cur' & d & ? & Hopt & ? & ?)].
    + left. by exists e.
    + right. exists cur, cur', d. split; [done|]. split; [|done].
      cbn in Hopt.
      destruct (ConnectionSecretMustBeControllableBy (GetUID o) cur to)
        as [[err|] [x' y']]; [done|]. by injection Hopt as -> ->.
Qed.

(** X10.  The payload travels verbatim.  With an [AllowPropagation] that
    leaves the destination's payload alone, and a destination that does not
    exist yet, the secret created (third call, after the two reads) carries
    exactly the payload of the source secret as read. *)
Theorem PropagateConnection_copies_payload
    (t : ObjectTyper) o mg w ref oref from s1 c kind e s2 :
  AllowKeepsPayload →
  GetWriteConnectionSecretToReference mg = Some ref →
  GetWriteConnectionSecretToReference o = Some oref →
  client_Get {| nnNamespace := refNamespace ref; nnName := refName ref |}
    emptySecret (store w) = (Replied from, s1) →
  metav1.GetControllerOf from = Some c →
  orUID c = GetUID mg →
  t o = Some kind →
  let marked :=
    AllowPropagation from
      (SetData (Data from) (LocalConnectionSecretFor o kind)) in
  client_Get (keyOf marked.2) marked.2 s1 = (Failed e, s2) →
  kerrors.IsNotFound (Some e) = true →
  Data marked.2 = Data from
  ∧ ∃ res w' rest,
      PropagateConnection (NewAPIManagedConnectionPropagator t) o mg w
      = (Returned res, w')
      ∧ calls w'
        = calls w
          ++ [CallGet {| nnNamespace := refNamespace ref;
                         nnName := refName ref |} emptySecret;
              CallGet (keyOf marked.2) marked.2;
              CallCreate marked.2]
          ++ rest.
Proof.
  intros Hkeeps Hmg Ho Hget Hctl Huid Hkind marked Hdst Hnf. split.
  { subst marked. by rewrite Hkeeps. }
  rewrite (PropagateConnection_after_read _ o mg w ref oref from s1) by done.
  rewrite Hctl, bool_decide_eq_false_2 by (by intros ?).
  cbn [typer NewAPIManagedConnectionPropagator client_Apply].
  unfold MustGetKind. rewrite Hkind. unfold bind at 1. rewrite run_ret.
  fold marked. destruct marked as [from' to] eqn:Hmarked. cbn [fst snd] in *.
  set (w1 := mkWorld s1 _).
  destruct (client_Create to s2) as [cr s3] eqn:Hcreate.
  rewrite (run_bind_returned _ _ _ _ _
             (updating_Apply_not_found to _ w1 e s2 cr s3 Hdst Hnf Hcreate)).
  cbn [fst errors.Wrap]. destruct cr as [ce|ans]; cbn [errOf errors.Wrap].
  - eexists _, _, []. split; [reflexivity|]. subst w1. cbn [calls].
    by rewrite app_nil_r, <- app_assoc.
  - destruct (client_Update from' s3) as [u s4] eqn:Hupdate.
    rewrite (run_bind_returned _ _ _ u
               (mkWorld s4 ((calls w1 ++ [CallGet (keyOf to) to; CallCreate to])
                            ++ [CallUpdate from']))).
    + eexists _, _, [CallUpdate from']. split; [reflexivity|].
      subst w1. cbn [calls]. by rewrite <- !app_assoc.
    + by apply (run_Update from' (mkWorld s3 _)).
Qed.
End PropagatorPaths.

(** ** The lifecycle helpers, on their other paths *)

Section LifecyclePaths.
Import resource managed.
Context {St : Type} `{Client St}.
Implicit Types (a : APIFinalizer) (mg : Object) (w : World St).

(** X11.  On a managed resource that lacks the token, [AddFinalizer] inserts
    it next to the tokens already there and issues one update of the result.
    Any error of that update comes back wrapped with [errUpdateManaged]: a
    not-found is reported like the others, it is not swallowed as in
    [RemoveFinalizer]. *)
Theorem AddFinalizer_adds a mg w :
  meta.FinalizerExists mg (finalizer a) = false →
  let added := meta.AddFinalizer mg (finalizer a) in
  let u := (client_Update added (store w)).1 in
  AddFinalizer a mg w
  = (Returned (match u with
               | Failed e => Some (withMessage e errUpdateManaged)
               | Replied _ => None
               end,
               objAfter u added),
     mkWorld (client_Update added (store w)).2 (calls w ++ [CallUpdate added]))
  ∧ GetFinalizers added = {[finalizer a]} ∪ GetFinalizers mg.
Proof.
  intros Habsent added u. split; [|reflexivity].
  unfold AddFinalizer. rewrite Habsent. fold added.
  destruct (client_Update added (store w)) as [u' s1] eqn:Hupdate.
  rewrite (run_bind_returned _ _ _ _ _ (run_Update _ _ _ _ Hupdate)).
  subst u. cbn [fst snd]. by destruct u'.
Qed.

Lemma AddFinalizer_finalizers a mg w :
  UpdateKeepsFinalizers St →
  ∃ err mg1 w1,
    AddFinalizer a mg w = (Returned (err, mg1), w1)
    ∧ GetFinalizers mg1 = {[finalizer a]} ∪ GetFinalizers mg.
Proof.
  intros Hkeeps. unfold AddFinalizer.
  destruct (meta.FinalizerExists mg (finalizer a)) eqn:Hex.
  - apply bool_decide_eq_true_1 in Hex.
    eexists _, _, _. split; [reflexivity|].
    symmetry. apply subseteq_union_1_L. by apply singleton_subseteq_l.
  - destruct (client_Update (meta.AddFinalizer mg (finalizer a)) (store w))
      as [u s1] eqn:Hupdate.
    rewrite (run_bind_returned _ _ _ _ _ (run_Update _ _ _ _ Hupdate)).
    eexists _, _, _. split; [reflexivity|].
    destruct u as [e|o']; cbn [objAfter]; [done|].
    by rewrite (Hkeeps _ _ _ _ Hupdate).
Qed.

Lemma RemoveFinalizer_finalizers a mg w :
  UpdateKeepsFinalizers St →
  ∃ err mg1 w1,
    RemoveFinalizer a mg w = (Returned (err, mg1), w1)
    ∧ GetFinalizers mg1 = GetFinalizers mg ∖ {[finalizer a]}.
Proof.
  intros Hkeeps. unfold RemoveFinalizer.
  destruct (client_Update (meta.RemoveFinalizer mg (finalizer a)) (store w))
    as [u s1] eqn:Hupdate.
  rewrite (run_bind_returned _ _ _ _ _ (run_Update _ _ _ _ Hupdate)).
  eexists _, _, _. split; [reflexivity|].
  destruct u as [e|o']; cbn [objAfter]; [done|].
  by rewrite (Hkeeps _ _ _ _ Hupdate).
Qed.

(** X12.  [RemoveFinalizer] after [AddFinalizer] with the same token, on a
    client whose answers to updates keep the finalizers sent: the resource
    ends with the tokens it had, minus the token; if it did not have the
    token to begin with, with exactly the tokens it had.  This holds whether
    or not the two updates succeed. *)
Theorem AddFinalizer_then_RemoveFinalizer a mg w :
  UpdateKeepsFinalizers St →
  ∃ e1 mg1 w1 e2 mg2 w2,
    AddFinalizer a mg w = (Returned (e1, mg1), w1)
    ∧ RemoveFinalizer a mg1 w1 = (Returned (e2, mg2), w2)
    ∧ GetFinalizers mg2 = GetFinalizers mg ∖ {[finalizer a]}
    ∧ (finalizer a ∉ GetFinalizers mg →
       GetFinalizers mg2 = GetFinalizers mg).
Proof.
  intros Hkeeps.
  destruct (AddFinalizer_finalizers a mg w Hkeeps)
    as (e1 & mg1 & w1 & Hadd & Hset1).
  destruct (RemoveFinalizer_finalizers a mg1 w1 Hkeeps)
    as (e2 & mg2 & w2 & Hremove & Hset2).
  exists e1, mg1, w1, e2, mg2, w2.
  split; [done|]. split; [done|].
  rewrite Hset2, Hset1.
  rewrite difference_union_distr_l_L, difference_diag_L, union_empty_l_L.
  split; [done|]. intros Hnotin.
  by apply difference_disjoint_L, disjoint_singleton_r.
Qed.

(** X13.  [Initialize] needs to run only once on a named resource, on a
    client whose answers to updates keep the annotations sent: after the
    first call the external name is set, and a second call returns nil
    without a call and without touching the resource.  A resource without a
    name is the exception: the first call issues an update and the external
    name is still unset after it. *)
Theorem Initialize_twice mg w :
  UpdateKeepsAnnotations St →
  ∃ err mg1 w1,
    Initialize mg w = (Returned (err, mg1), w1)
    ∧ (GetName mg ≠ "" →
       meta.GetExternalName mg1 ≠ ""
       ∧ Initialize mg1 w1 = (Returned (None, mg1), w1))
    ∧ (GetName mg = "" → meta.GetExternalName mg = "" →
       meta.GetExternalName mg1 = ""
       ∧ calls w1
         = calls w ++ [CallUpdate (meta.SetExternalName mg (GetName mg))]).
Proof.
  intros Hkeeps. unfold Initialize at 1.
  destruct (bool_decide (meta.GetExternalName mg ≠ "")) eqn:Hset.
  - apply bool_decide_eq_true_1 in Hset.
    eexists _, _, _. split; [reflexivity|]. split; [|done].
    intros _. split; [done|]. unfold Initialize.
    by rewrite bool_decide_eq_true_2.
  - apply bool_decide_eq_false_1 in Hset.
    set (named := meta.SetExternalName mg (GetName mg)).
    destruct (client_Update named (store w)) as [u s1] eqn:Hupdate.
    rewrite (run_bind_returned _ _ _ _ _ (run_Update _ _ _ _ Hupdate)).
    eexists _, _, _. split; [reflexivity|].
    assert (Hname : meta.GetExternalName (objAfter u named) = GetName mg).
    { unfold meta.GetExternalName.
      replace (GetAnnotations (objAfter u named)) with (GetAnnotations named).
      - unfold named, meta.SetExternalName. cbn. by rewrite lookup_insert_eq.
      - destruct u as [e|o']; cbn [objAfter]; [done|].
        by rewrite (Hkeeps _ _ _ _ Hupdate). }
    split.
    + intros Hnamed. rewrite Hname. split; [done|]. unfold Initialize.
      by rewrite bool_decide_eq_true_2 by (by rewrite Hname).
    + intros Hunnamed _. by rewrite Hname.
Qed.

(** X14.  A managed resource without a secret reference publishes nothing:
    [PublishConnection] returns nil without any call, whatever the publisher's
    applicator and type resolver (the resolver is not consulted, so one that
    does not know the resource does no harm). *)
Theorem PublishConnection_no_reference `{Imports}
    (a : APISecretPublisher) mg (c : ConnectionDetails) w :
  GetWriteConnectionSecretToReference mg = None →
  PublishConnection a mg c w = (Returned None, w).
Proof. intros Hnone. unfold PublishConnection. by rewrite Hnone. Qed.

(** X15.  Publishing to a secret that does not exist yet, with the publisher
    built by [NewAPISecretPublisher]: after the read, the secret for the
    managed resource is created with exactly the connection details given as
    its payload; no option is consulted.  A failed create comes back wrapped
    twice, by the applicator and by the publisher. *)
Theorem PublishConnection_creates_payload `{Imports}
    (t : ObjectTyper) mg (c : ConnectionDetails) w ref kind e s1 cr s2 :
  GetWriteConnectionSecretToReference mg = Some ref →
  t mg = Some kind →
  let s := SetData c (ConnectionSecretFor mg kind) in
  client_Get (keyOf s) s (store w) = (Failed e, s1) →
  kerrors.IsNotFound (Some e) = true →
  client_Create s s1 = (cr, s2) →
  Data s = c
  ∧ PublishConnection (NewAPISecretPublisher t) mg c w
    = (Returned (match cr with
                 | Failed ce =>
                     Some (withMessage (withMessage ce "cannot create object")
                             errCreateOrUpdateSecret)
                 | Replied _ => None
                 end),
       mkWorld s2 (calls w ++ [CallGet (keyOf s) s; CallCreate s])).
Proof.
  intros Href Hkind s Hget Hnf Hcreate. split; [reflexivity|].
  unfold PublishConnection. rewrite Href. cbn [bool_decide decide_rel].
  rewrite bool_decide_eq_false_2 by done.
  cbn [typer secret NewAPISecretPublisher].
  unfold MustGetKind. rewrite Hkind. unfold bind at 1. rewrite run_ret.
  fold s.
  rewrite (run_bind_returned _ _ _ _ _
             (patching_Apply_not_found s _ w e s1 cr s2 Hget Hnf Hcreate)).
  by destruct cr.
Qed.

(** X16.  Publishing over a secret that exists, with the publisher built by
    [NewAPISecretPublisher]: the ownership option is asked about the secret
    read.  If it vetoes, its error comes back wrapped with
    [errCreateOrUpdateSecret] and nothing is written; if it passes, one merge
    patch is issued, whose body is the document of the desired secret as the
    option left it. *)
Theorem PublishConnection_on_existing_secret `{Imports}
    (t : ObjectTyper) mg (c : ConnectionDetails) w ref kind cur s1 :
  GetWriteConnectionSecretToReference mg = Some ref →
  t mg = Some kind →
  let s := SetData c (ConnectionSecretFor mg kind) in
  client_Get (keyOf s) s (store w) = (Replied cur, s1) →
  match ConnectionSecretMustBeControllableBy (GetUID mg) cur s with
  | (Some err, _) =>
      PublishConnection (NewAPISecretPublisher t) mg c w
      = (Returned (Some (withMessage err errCreateOrUpdateSecret)),
         mkWorld s1 (calls w ++ [CallGet (keyOf s) s]))
  | (None, (cur', s')) =>
      let body := json.Marshal s' in
      let answer := client_Patch cur' MergePatchType body s1 in
      PublishConnection (NewAPISecretPublisher t) mg c w
      = (Returned (match answer.1 with
                   | Failed pe =>
                       Some (withMessage (withMessage pe "cannot patch object")
                               errCreateOrUpdateSecret)
                   | Replied _ => None
                   end),
         mkWorld answer.2
           (calls w ++ [CallGet (keyOf s) s;
                        CallPatch cur' MergePatchType body]))
  end.
Proof.
  intros Href Hkind s Hget.
  assert (Hstart : PublishConnection (NewAPISecretPublisher t) mg c w
            = bind (APIPatchingApplicator_Apply (MetaObject s)
                      [ConnectionSecretMustBeControllableBy (GetUID mg)])
                (λ applied, ret (errors.Wrap applied.1 errCreateOrUpdateSecret))
                w).
  { unfold PublishConnection. rewrite Href. cbn [bool_decide decide_rel].
    rewrite bool_decide_eq_false_2 by done.
    cbn [typer secret NewAPISecretPublisher].
    unfold MustGetKind. rewrite Hkind. unfold bind at 1. by rewrite run_ret. }
  rewrite Hstart. clear Hstart.
  destruct (ConnectionSecretMustBeControllableBy (GetUID mg) cur s)
    as [[err|] [cur' s']] eqn:Hopt.
  - assert (Hopts : runOptions
                        [ConnectionSecretMustBeControllableBy (GetUID mg)]
                        cur s = (Some err, (cur', s'))).
    { cbn. by rewrite Hopt. }
    by rewrite (run_bind_returned _ _ _ _ _
                  (patching_Apply_vetoed s _ w cur s1 err cur' s' Hget Hopts)).
  - intros body answer.
    assert (Hopts : runOptions
                        [ConnectionSecretMustBeControllableBy (GetUID mg)]
                        cur s = (None, (cur', s'))).
    { cbn. by rewrite Hopt. }
    destruct (client_Patch cur' MergePatchType body s1) as [p s2] eqn:Hpatch.
    rewrite (run_bind_returned _ _ _ _ _
               (patching_Apply_existing s _ w cur s1 cur' s' p s2
                  Hget Hopts Hpatch)).
    subst answer. cbn [fst snd]. by destruct p.
Qed.
End LifecyclePaths.

(** ** The further properties at work *)

Section FurtherRuns.
Import resource managed scenario unreachable apiserver.

Lemma update_keeps_annotations : UpdateKeepsAnnotations Store.
Proof.
  intros obj s o' s' Hupdate. cbn in Hupdate. unfold update in Hupdate.
  destruct (s !! storeKey (keyOf obj)) as [cur|]; [|done].
  case_decide; [|done]. by injection Hupdate as <- _.
Qed.

Lemma scenario_allow_keeps_payload : AllowKeepsPayload.
Proof. intros from to. reflexivity. Qed.

(** X1 at work: the server cannot be reached. *)
Lemma Apply_read_failure_witness :
  APIPatchingApplicator_Apply (MetaObject db1) [touch] unreachable.start
  = APIUpdatingApplicator_Apply (MetaObject db1) [touch] unreachable.start.
Proof.
  destruct (Apply_read_failure db1 [touch] unreachable.start
              unreachable.timeout ()) as [Hp Hu].
  - reflexivity.
  - reflexivity.
  - by rewrite Hp, Hu.
Defined.

(** X2 at work: [creds] is controlled by [u2], the option asks for [u1]. *)
Lemma Apply_veto_witness :
  (APIPatchingApplicator_Apply (MetaObject (SetData ∅ (creds "u2")))
     [connectionSecretMustBeControllableBy "u1"]
     (start (storeOf [creds "u2"]))).1
  = Returned (errors.New "existing secret is not controlled by UID",
              MetaObject (creds "u2"))
  ∧ (APIUpdatingApplicator_Apply (MetaObject (SetData ∅ (creds "u2")))
       [connectionSecretMustBeControllableBy "u1"]
       (start (storeOf [creds "u2"]))).1
    = Returned (errors.New "existing secret is not controlled by UID",
                MetaObject (SetData ∅ (creds "u2"))).
Proof.
  destruct (Apply_veto (SetData ∅ (creds "u2"))
              [connectionSecretMustBeControllableBy "u1"]
              (start (storeOf [creds "u2"])) (creds "u2")
              (storeOf [creds "u2"])
              (fundamental "existing secret is not controlled by UID")
              (creds "u2") (SetData ∅ (creds "u2"))) as [Hp Hu].
  - vm_compute. reflexivity.
  - vm_compute. reflexivity.
  - by rewrite Hp, Hu.
Defined.

(** X3 at work: a veto between two options that adjust the desired object. *)
Lemma runOptions_in_order_witness :
  runOptions ([touch] ++ connectionSecretMustBeControllableBy "u1" :: [touch])
    (creds "u2") db1
  = (errors.New "existing secret is not controlled by UID",
     (creds "u2", (touch (creds "u2") db1).2.2)).
Proof.
  destruct (runOptions_in_order [touch] [touch] (creds "u2") db1)
    as [_ Hveto].
  apply (Hveto _ (creds "u2") (touch (creds "u2") db1).2.2).
  - reflexivity.
  - reflexivity.
Defined.

(** X4 at work. *)
Lemma Apply_call_discipline_witness :
  ∃ res obj' w' issued,
    APIUpdatingApplicator_Apply (MetaObject db1) [] (start (storeOf [db1]))
    = (Returned (res, obj'), w')
    ∧ Forall (λ c, isPatch c = false) issued
    ∧ calls w' = issued.
Proof.
  destruct (Apply_call_discipline (MetaObject db1) []
              (start (storeOf [db1])))
    as [_ (res & obj' & w' & issued & Hrun & Hcalls & _ & _ & Hnever & _)].
  by exists res, obj', w', issued.
Defined.

(** X5 at work: the error for an object without metadata. *)
Lemma Apply_errors_described_witness :
  fundamental "cannot access object metadata"
  = fundamental "cannot access object metadata"
  ∨ wrappedWith ["cannot create object"; "cannot get object";
                 "cannot update object"]
      (fundamental "cannot access object metadata")
  ∨ ∃ fn x y xy,
      fn ∈ [touch]
      ∧ fn x y = (Some (fundamental "cannot access object metadata"), xy).
Proof.
  apply (Apply_errors_described (OpaqueObject "a list") [touch]
           (start ∅) (fundamental "cannot access object metadata")
           (OpaqueObject "a list") (start ∅)).
  reflexivity.
Defined.

(** X6 at work: the owner asks for no copy. *)
Lemma PropagateConnection_no_reference_witness :
  PropagateConnection propagator (object "team" "app" "c1" 2 [] None ∅) db1
    (start (storeOf [creds "u1"]))
  = (Returned None, start (storeOf [creds "u1"])).
Proof.
  apply (PropagateConnection_no_reference propagator). right. reflexivity.
Defined.

(** X7 at work: the source secret is not there. *)
Lemma PropagateConnection_read_failure_witness :
  ∃ w',
    PropagateConnection propagator app db1 (start ∅)
    = (Returned (Some (withMessage notFound errGetSecret)), w')
    ∧ store w' = ∅.
Proof.
  destruct (PropagateConnection_read_failure propagator app db1 (start ∅)
              credsRef appRef notFound ∅) as (w' & Hrun & Hstore & _).
  - reflexivity.
  - reflexivity.
  - reflexivity.
  - by exists w'.
Defined.

(** X8 at work: the conflict of [creds] controlled by [u2]. *)
Lemma PropagateConnection_errors_described_witness :
  fundamental errSecretConflict = fundamental errSecretConflict
  ∨ wrappedWith [errGetSecret; errCreateOrUpdateSecret; errUpdateSecret]
      (fundamental errSecretConflict).
Proof.
  apply (PropagateConnection_errors_described propagator app db1
           (start (storeOf [creds "u2"])) (fundamental errSecretConflict)
           (PropagateConnection propagator app db1
              (start (storeOf [creds "u2"]))).2).
  rewrite (surjective_pairing (PropagateConnection _ _ _ _)) at 1.
  f_equal.
Defined.

(** X9 at work: the propagation of [creds] to [app] went through, on the
    secret stored and with [app-creds] created. *)
Lemma PropagateConnection_nil_means_done_witness :
  ∃ c,
    metav1.GetControllerOf (creds "u1") = Some c
    ∧ orUID c = "u1"
    ∧ ∃ x updated,
        calls (PropagateConnection propagator app db1
                 (start (storeOf [creds "u1"]))).2
        = [CallGet {| nnNamespace := "infra"; nnName := "creds" |} emptySecret;
           CallGet {| nnNamespace := "team"; nnName := "app-creds" |}
             (allowPropagation (creds "u1")
                (SetData payload
                   (localConnectionSecretFor app
                      (kindOf "example.org" "Database")))).2;
           x;
           CallUpdate updated].
Proof.
  destruct (PropagateConnection_nil_means_done knownTyper app db1
              (start (storeOf [creds "u1"]))
              (PropagateConnection propagator app db1
                 (start (storeOf [creds "u1"]))).2 credsRef appRef
              (kindOf "example.org" "Database"))
    as (from & s1 & c & Hget & Hctl & Huid & Hrest).
  - reflexivity.
  - reflexivity.
  - reflexivity.
  - rewrite (surjective_pairing (PropagateConnection _ _ _ _)) at 1.
    f_equal; vm_compute; reflexivity.
  - assert (Hfrom : from = creds "u1").
    { vm_compute in Hget. by injection Hget as <- _. }
    subst from. exists c. split; [done|]. split; [done|].
    destruct Hrest as (x & s2 & s3 & written & updated & Hcalls & _).
    eexists x, _. exact Hcalls.
Defined.

(** X10 at work: [app-creds] does not exist yet. *)
Lemma PropagateConnection_copies_payload_witness :
  Data (allowPropagation (creds "u1")
          (SetData (Data (creds "u1"))
             (localConnectionSecretFor app (kindOf "example.org" "Database")))).2
  = payload.
Proof.
  destruct (PropagateConnection_copies_payload knownTyper app db1
              (start (storeOf [creds "u1"])) credsRef appRef
              (creds "u1") (storeOf [creds "u1"])
              {| orAPIVersion := "example.org/v1"; orKind := "Database";
                 orName := "db-1"; orUID := "u1";
                 orController := Some true;
                 orBlockOwnerDeletion := Some true |}
              (kindOf "example.org" "Database")
              notFound (storeOf [creds "u1"])) as [Hdata _].
  - exact scenario_allow_keeps_payload.
  - reflexivity.
  - reflexivity.
  - vm_compute. reflexivity.
  - reflexivity.
  - reflexivity.
  - reflexivity.
  - vm_compute. reflexivity.
  - reflexivity.
  - exact Hdata.
Defined.

(** X11 at work: [db-1] has no finalizer yet. *)
Lemma AddFinalizer_adds_witness :
  GetFinalizers (meta.AddFinalizer db1 "finalizer.example.org")
  = {[ "finalizer.example.org" ]} ∪ GetFinalizers db1.
Proof.
  apply (AddFinalizer_adds finalizerOf db1 (start (storeOf [db1]))).
  vm_compute. reflexivity.
Defined.

(** X12 at work. *)
Lemma AddFinalizer_then_RemoveFinalizer_witness :
  ∃ e1 mg1 w1 e2 mg2 w2,
    AddFinalizer finalizerOf db1 (start (storeOf [db1]))
    = (Returned (e1, mg1), w1)
    ∧ RemoveFinalizer finalizerOf mg1 w1 = (Returned (e2, mg2), w2)
    ∧ GetFinalizers mg2 = GetFinalizers db1.
Proof.
  destruct (AddFinalizer_then_RemoveFinalizer finalizerOf db1
              (start (storeOf [db1])) update_keeps_finalizers)
    as (e1 & mg1 & w1 & e2 & mg2 & w2 & Hadd & Hremove & _ & Hsame).
  exists e1, mg1, w1, e2, mg2, w2. split; [done|]. split; [done|].
  apply Hsame. vm_compute. set_solver.
Defined.

(** X13 at work: [db-1] is named. *)
Lemma Initialize_twice_witness :
  ∃ err mg1 w1,
    Initialize db1 (start (storeOf [db1])) = (Returned (err, mg1), w1)
    ∧ Initialize mg1 w1 = (Returned (None, mg1), w1).
Proof.
  destruct (Initialize_twice db1 (start (storeOf [db1]))
              update_keeps_annotations)
    as (err & mg1 & w1 & Hfirst & Hnamed & _).
  exists err, mg1, w1. split; [done|]. by apply Hnamed.
Defined.

(** X14 at work: a resource that exposes no connection secret, and a type
    resolver that does not know it. *)
Lemma PublishConnection_no_reference_witness :
  PublishConnection (NewAPISecretPublisher unknownTyper)
    (object "infra" "cache-1" "u9" 1 [] None ∅) payload (start ∅)
  = (Returned None, start ∅).
Proof.
  apply (PublishConnection_no_reference (NewAPISecretPublisher unknownTyper)).
  reflexivity.
Defined.

(** X15 at work: [creds] does not exist yet. *)
Lemma PublishConnection_creates_payload_witness :
  Data (SetData payload
          (connectionSecretFor db1 (kindOf "example.org" "Database")))
  = payload
  ∧ (PublishConnection (NewAPISecretPublisher knownTyper) db1 payload
       (start ∅)).1
    = Returned None.
Proof.
  destruct (PublishConnection_creates_payload knownTyper db1 payload
              (start ∅) credsRef (kindOf "example.org" "Database") notFound ∅
              (Replied (SetResourceVersion 1
                          (SetData payload
                             (connectionSecretFor db1
                                (kindOf "example.org" "Database")))))
              (storeOf [SetResourceVersion 1
                          (SetData payload
                             (connectionSecretFor db1
                                (kindOf "example.org" "Database")))]))
    as [Hdata Hrun].
  - reflexivity.
  - reflexivity.
  - reflexivity.
  - reflexivity.
  - vm_compute. reflexivity.
  - split; [exact Hdata|]. by rewrite Hrun.
Defined.

(** X16 at work: [creds] exists and is controlled by [u2]. *)
Lemma PublishConnection_on_existing_secret_witness :
  PublishConnection (NewAPISecretPublisher knownTyper) db1 payload
    (start (storeOf [creds "u2"]))
  = (Returned (Some (withMessage
                       (fundamental "existing secret is not controlled by UID")
                       managed.errCreateOrUpdateSecret)),
     mkWorld (storeOf [creds "u2"])
       [CallGet {| nnNamespace := "infra"; nnName := "creds" |}
          (SetData payload
             (connectionSecretFor db1 (kindOf "example.org" "Database")))]).
Proof.
  assert (Hget : client_Get
            (keyOf (SetData payload
                      (connectionSecretFor db1
                         (kindOf "example.org" "Database"))))
            (SetData payload
               (connectionSecretFor db1 (kindOf "example.org" "Database")))
            (store (start (storeOf [creds "u2"])))
          = (Replied (creds "u2"), storeOf [creds "u2"])).
  { vm_compute. reflexivity. }
  exact (PublishConnection_on_existing_secret knownTyper db1 payload
           (start (storeOf [creds "u2"])) credsRef
           (kindOf "example.org" "Database") (creds "u2")
           (storeOf [creds "u2"]) eq_refl eq_refl Hget).
Defined.
End FurtherRuns.

(** ** Which writes the two callers of the applicators can issue *)

Section CallerDiscipline.
Import resource managed.
Context {St : Type} `{Client St} `{Imports}.
Implicit Types (o mg : Object) (w : World St).

(** X17.  The propagator built by [NewAPIManagedConnectionPropagator]
    never issues a patch, whatever the inputs and however the run ends (nil,
    error or abort): what it issues is at most the read of the source, the
    read of the destination, one create or update of the destination and one
    update of the source, four calls in all. *)
Theorem PropagateConnection_never_patches (t : ObjectTyper) o mg w :
  ∃ issued,
    calls (PropagateConnection (NewAPIManagedConnectionPropagator t) o mg w).2
    = calls w ++ issued
    ∧ Forall (λ c, isPatch c = false) issued
    ∧ (length issued ≤ 4)%nat.
Proof.
  destruct (GetWriteConnectionSecretToReference mg) as [ref|] eqn:Hmg.
  2:{ rewrite PropagateConnection_short_circuit by by left.
      exists []. rewrite app_nil_r.
      split; [done|]. split; [constructor|cbn; lia]. }
  destruct (GetWriteConnectionSecretToReference o) as [oref|] eqn:Ho.
  2:{ rewrite PropagateConnection_short_circuit by by right.
      exists []. rewrite app_nil_r.
      split; [done|]. split; [constructor|cbn; lia]. }
  set (read := CallGet {| nnNamespace := refNamespace ref;
                          nnName := refName ref |} emptySecret).
  destruct (client_Get {| nnNamespace := refNamespace ref;
                          nnName := refName ref |} emptySecret (store w))
    as [[e|from] s1] eqn:Hget.
  { rewrite (PropagateConnection_read_failed _ o mg w ref oref e s1) by done.
    exists [read]. split; [done|]. split; [by repeat constructor|cbn; lia]. }
  rewrite (PropagateConnection_after_read _ o mg w ref oref from s1) by done.
  fold read. set (w1 := mkWorld s1 (calls w ++ [read])).
  destruct (match metav1.GetControllerOf from with
            | Some c => bool_decide (orUID c ≠ GetUID mg)
            | None => true
            end).
  { exists [read]. split; [done|]. split; [by repeat constructor|cbn; lia]. }
  cbn [resource.typer NewAPIManagedConnectionPropagator client_Apply].
  unfold MustGetKind. destruct (t o) as [kind|].
  2:{ exists [read]. split; [done|].
      split; [by repeat constructor|cbn; lia]. }
  unfold bind at 1. rewrite run_ret.
  destruct (AllowPropagation from _) as [from' to].
  destruct (updating_Apply_cases (MetaObject to)
              [ConnectionSecretMustBeControllableBy (GetUID o)] w1)
    as (res & obj' & w2 & issued & Happly & Hcalls & Hshape & Hnever & _).
  rewrite (run_bind_returned _ _ _ _ _ Happly). cbn [fst].
  assert (Hlen : (length issued ≤ 2)%nat).
  { destruct Hshape as [-> | (key & into & [-> | (c & -> & _)])]; cbn; lia. }
  destruct res as [ae|].
  - exists (read :: issued).
    cbn [snd ret]. rewrite Hcalls. subst w1. cbn [calls].
    rewrite <- app_assoc.
    split; [done|]. split; [by constructor|cbn; lia].
  - destruct (client_Update from' (store w2)) as [u s3] eqn:Hupdate.
    rewrite (run_bind_returned _ _ _ _ _ (run_Update _ _ _ _ Hupdate)).
    exists (read :: issued ++ [CallUpdate from']).
    cbn [snd ret calls]. rewrite Hcalls. subst w1. cbn [calls].
    rewrite <- !app_assoc.
    split; [done|]. split.
    + constructor; [done|]. apply Forall_app. split; [done|].
      by repeat constructor.
    + cbn. rewrite length_app. cbn. lia.
Qed.

(** X18.  The publisher built by [NewAPISecretPublisher] never issues an
    update, whatever the inputs and however the run ends: what it issues is
    nothing, or the read of the secret, or that read followed by one create
    or one patch. *)
Theorem PublishConnection_never_updates
    (t : ObjectTyper) mg (c : ConnectionDetails) w :
  ∃ issued,
    calls (PublishConnection (NewAPISecretPublisher t) mg c w).2
    = calls w ++ issued
    ∧ readThenWrite issued
    ∧ Forall (λ c, isUpdate c = false) issued.
Proof.
  unfold PublishConnection.
  destruct (GetWriteConnectionSecretToReference mg) as [ref|].
  2:{ exists []. rewrite app_nil_r. split; [done|].
      split; [by left|constructor]. }
  rewrite bool_decide_eq_false_2 by done.
  cbn [managed.typer secret NewAPISecretPublisher].
  unfold MustGetKind. destruct (t mg) as [kind|].
  2:{ exists []. rewrite app_nil_r. split; [done|].
      split; [by left|constructor]. }
  unfold bind at 1. rewrite run_ret.
  destruct (patching_Apply_cases
              (MetaObject (SetData c (ConnectionSecretFor mg kind)))
              [ConnectionSecretMustBeControllableBy (GetUID mg)] w)
    as (res & obj' & w' & issued & Happly & Hcalls & Hshape & Hnever & _).
  rewrite (run_bind_returned _ _ _ _ _ Happly).
  by exists issued.
Qed.
End CallerDiscipline.
